(** * Metrics registry of the Care Plan Generator

    A shallow embedding of [backend/apps/core/metrics.py]: the instrument
    declarations, the pricing table [LLM_PRICING], and the two helpers
    [record_llm_cost] and [init_app_info].

    Python [float] is IEEE 754 binary64, modelled by the kernel's primitive
    [float]; Python [int] is [Z]; [str] is [string]; a [dict] is a [gmap].
    The instruments are objects of the [prometheus_client] package; the
    operations of that package which the helpers call ([labels], [inc],
    [info]), and [increment] and [observe], are modelled in
    [Module Prometheus]. *)

From Stdlib Require Import ZArith Lia Bool.
From Stdlib Require Import Floats.
From stdpp Require Import gmap strings list fin_maps.

Set Warnings "-inexact-float".

Local Open Scope Z_scope.

(** ** Python values and exceptions *)

Inductive exn : Type :=
  | ValueError
  | OverflowError
  | ZeroDivisionError
  | AttributeError.

Inductive result (A : Type) : Type :=
  | Ok (a : A)
  | Raise (e : exn).
Arguments Ok {A} a.
Arguments Raise {A} e.


Definition bind_result {A B} (r : result A) (k : A -> result B) : result B :=
  match r with
  | Ok a => k a
  | Raise e => Raise e
  end.

Notation "'let?' x ':=' r 'in' k" := (bind_result r (fun x => k))
  (at level 10, x name, r at level 100, k at level 200).

(** ** Python arithmetic on [int] and [float] *)

Module Py.

(** [float(n)] for an [int] that a double holds exactly, [|n| < 2^53]. *)
Definition small_int_to_float (n : Z) : float :=
  if n <? 0 then (- of_uint63 (Uint63.of_Z (- n)))%float
  else of_uint63 (Uint63.of_Z n).

Definition is_small (n : Z) : bool := Z.abs n <? 2 ^ 53.

Definition int_to_spec (n : Z) : spec_float :=
  match n with
  | Z0 => S754_zero false
  | Zpos m => S754_finite false m 0
  | Zneg m => S754_finite true m 0
  end.

(** [a / b] on two [int]s (true division).  When both operands are
    exactly representable the quotient is the IEEE quotient of the two
    doubles.  Otherwise it is the exact quotient rounded to nearest even,
    and [OverflowError] when that does not fit in a double. *)
Definition int_truediv (a b : Z) : result float :=
  if b =? 0 then Raise ZeroDivisionError
  else if is_small a && is_small b
  then Ok (small_int_to_float a / small_int_to_float b)%float
  else match SFdiv prec emax (int_to_spec a) (int_to_spec b) with
       | S754_infinity _ => Raise OverflowError
       | q => Ok (SF2Prim q)
       end.

End Py.

(** ** The [prometheus_client] objects the module instantiates *)

Module Prometheus.

Inductive kind : Type := Counter | Gauge | Histogram | Info.

#[global] Instance kind_eq_dec : EqDecision kind.
Proof. solve_decision. Defined.

(** What a constructor call [Counter(name, documentation, labelnames)],
    [Histogram(..., buckets=...)], [Gauge(...)], [Info(...)] fixes. *)
Record instrument : Type := Instrument {
  kind_of : kind;
  name : string;
  documentation : string;
  labelnames : list string;
  buckets : list float
}.

(** State of a histogram child: one count per upper bound (cumulative:
    observations at or below the bound), the number of observations and
    their running sum. *)
Record histogram_state : Type := HistogramState {
  bucket_counts : list N;
  total_count : N;
  running_sum : float
}.

(** State of one child (one time series) of an instrument. *)
Inductive sample : Type :=
  | CounterValue (total : float)
  | GaugeValue (value : float)
  | HistogramValue (h : histogram_state)
  | InfoValue (record : gmap string string).

(** The children of all instruments: instrument name and label values
    to child state.  A child that was never touched is absent. *)
Abbreviation registry := (gmap (string * list string) sample).

(** A computation on the process-wide registry that may raise. *)
Definition M (A : Type) : Type := registry -> result (A * registry).

Definition ret {A} (a : A) : M A := fun st => Ok (a, st).
Definition raise {A} (e : exn) : M A := fun _ => Raise e.
Definition bind {A B} (m : M A) (k : A -> M B) : M B :=
  fun st => match m st with
            | Ok (a, st') => k a st'
            | Raise e => Raise e
            end.
Definition lift {A} (r : result A) : M A :=
  fun st => match r with Ok a => Ok (a, st) | Raise e => Raise e end.

(** The keyword names given are exactly the declared label names (the
    package compares the two sorted lists; keyword names are distinct). *)
Definition same_names (given declared : list string) : bool :=
  bool_decide (length given = length declared)
  && forallb (fun l => bool_decide (l ∈ given)) declared
  && forallb (fun l => bool_decide (l ∈ declared)) given.

Fixpoint kwarg (l : string) (kw : list (string * string)) : option string :=
  match kw with
  | [] => None
  | (k, v) :: kw' => if bool_decide (k = l) then Some v else kwarg l kw'
  end.

(** Modelled from the spec: [labels] of the [prometheus_client] package,
    which is not under src/, called with keyword arguments.  A label vector
    assigns values to exactly the declared label names (anything else is
    the usage error, [ValueError] in the package); the child key is the
    values in declaration order. *)
Definition labels (m : instrument) (kw : list (string * string))
  : result (list string) :=
  match labelnames m with
  | [] => Raise ValueError
  | _ =>
    if same_names (kw.*1) (labelnames m)
    then Ok (omap (fun l => kwarg l kw) (labelnames m))
    else Raise ValueError
  end.

(** Value of a counter child; a child is created at [0.0]. *)
Definition counter_value (st : registry) (m : instrument) (lv : list string)
  : float :=
  match st !! (name m, lv) with
  | Some (CounterValue v) => v
  | _ => 0%float
  end.

(** Modelled from the spec: [inc] of a counter child of the
    [prometheus_client] package, which is not under src/.  [lv] is the
    key of the child, as [labels] returns it; which label vectors an
    instrument accepts is decided before, by [labels] and by [increment]
    below.  It requires [amount >= 0] (the package raises [ValueError] on
    [amount < 0]) and adds [amount] to the accumulator keyed by the label
    vector, creating it with value 0 first if absent. *)
Definition inc (m : instrument) (lv : list string) (amount : float) : M unit :=
  fun st =>
    if (amount <? 0)%float then Raise ValueError
    else Ok (tt, <[(name m, lv) := CounterValue (counter_value st m lv + amount)%float]> st).

(** The values a label assignment gives to the declared label names, in
    declaration order. *)
Definition label_values (m : instrument) (kw : list (string * string))
  : list string :=
  omap (fun l => kwarg l kw) (labelnames m).

(** Modelled from the spec: [Counter.increment(labels?, amount)], the
    counter operation of the [prometheus_client] package, which is not
    under src/.  It fails when the supplied label set does not exactly
    match the declared label names (the spec's [InvalidLabelsError], a
    [ValueError] in the package; an instrument without label names takes
    no labels), then requires [amount >= 0], and adds [amount] to the
    accumulator keyed by the label vector.  An instrument of another kind
    has no counter operation ([AttributeError] in Python). *)
Definition increment (m : instrument) (kw : list (string * string))
    (amount : float) : M unit :=
  match kind_of m with
  | Counter =>
    if same_names (kw.*1) (labelnames m)
    then inc m (label_values m kw) amount
    else raise ValueError
  | Gauge | Histogram | Info => raise AttributeError
  end.

Definition info_value (st : registry) (m : instrument) : gmap string string :=
  match st !! (name m, []) with
  | Some (InfoValue d) => d
  | _ => ∅
  end.

(** Modelled from the spec: [Info.info] of the [prometheus_client]
    package, which is not under src/.  It replaces the full key/value
    record (the package first refuses keys that are label names of the
    instrument). *)
Definition info (m : instrument) (val : gmap string string) : M unit :=
  fun st =>
    if existsb (fun l => bool_decide (is_Some (val !! l))) (labelnames m)
    then Raise ValueError
    else Ok (tt, <[(name m, []) := InfoValue val]> st).

(** The upper bounds of a histogram: the declared buckets and the
    implicit [+Inf] bucket. *)
Definition upper_bounds (m : instrument) : list float :=
  buckets m ++ [infinity].

Definition histogram_zero (bounds : list float) : histogram_state :=
  HistogramState (replicate (length bounds) 0%N) 0%N 0%float.

Definition histogram_value (st : registry) (m : instrument) (lv : list string)
  : histogram_state :=
  match st !! (name m, lv) with
  | Some (HistogramValue h) => h
  | _ => histogram_zero (upper_bounds m)
  end.




(** A sequence of calls on the registry, stopping at the first exception. *)
Fixpoint run {A} (ms : list (M A)) (st : registry) : result registry :=
  match ms with
  | [] => Ok st
  | m :: ms' =>
    match m st with
    | Ok (_, st') => run ms' st'
    | Raise e => Raise e
    end
  end.

End Prometheus.

Import Prometheus.

Notation "'let*' x ':=' m 'in' k" := (Prometheus.bind m (fun x => k))
  (at level 10, x name, m at level 100, k at level 200).

(** ** The module's declarations *)

Definition APP_INFO : instrument :=
  Instrument Info "careplan_app" "Application information" [] [].

Definition ORDER_CREATED_TOTAL : instrument :=
  Instrument Counter "careplan_order_created_total"
    "Total number of orders created" ["status"] [].

Definition ORDER_CREATE_DURATION_SECONDS : instrument :=
  Instrument Histogram "careplan_order_create_duration_seconds"
    "Time spent creating an order (API response time)" []
    [0.05; 0.1; 0.25; 0.5; 1.0; 2.5; 5.0; 10.0]%float.

Definition DUPLICATE_DETECTION_TOTAL : instrument :=
  Instrument Counter "careplan_duplicate_detection_total"
    "Duplicate detection results by type" ["entity_type"; "result"] [].

Definition CARE_PLAN_GENERATION_TOTAL : instrument :=
  Instrument Counter "careplan_generation_total"
    "Total care plan generation attempts" ["status"] [].

Definition CARE_PLAN_GENERATION_DURATION_SECONDS : instrument :=
  Instrument Histogram "careplan_generation_duration_seconds"
    "Time spent generating care plans (including LLM call)" []
    [1.0; 2.5; 5.0; 10.0; 20.0; 30.0; 60.0; 120.0]%float.

Definition CARE_PLAN_QUEUE_SIZE : instrument :=
  Instrument Gauge "careplan_queue_size"
    "Number of care plans pending generation" [] [].

Definition CARE_PLAN_QUEUED_TOTAL : instrument :=
  Instrument Counter "careplan_queued_total"
    "Care plan generation tasks queued" ["status"] [].

Definition CARE_PLAN_RETRY_TOTAL : instrument :=
  Instrument Counter "careplan_retry_total"
    "Care plan generation retries" [] [].

Definition LLM_REQUEST_TOTAL : instrument :=
  Instrument Counter "careplan_llm_request_total"
    "Total LLM API requests" ["provider"; "status"] [].

Definition LLM_REQUEST_DURATION_SECONDS : instrument :=
  Instrument Histogram "careplan_llm_request_duration_seconds"
    "LLM API request latency" ["provider"]
    [0.5; 1.0; 2.5; 5.0; 10.0; 20.0; 30.0; 60.0]%float.

Definition LLM_TOKENS_USED_TOTAL : instrument :=
  Instrument Counter "careplan_llm_tokens_total"
    "Total LLM tokens used" ["provider"; "token_type"] [].

Definition LLM_COST_DOLLARS_TOTAL : instrument :=
  Instrument Counter "careplan_llm_cost_dollars_total"
    "Estimated LLM cost in dollars" ["provider"; "model"] [].

Definition API_REQUEST_TOTAL : instrument :=
  Instrument Counter "careplan_api_request_total"
    "Total API requests" ["method"; "endpoint"; "status_code"] [].

Definition API_REQUEST_DURATION_SECONDS : instrument :=
  Instrument Histogram "careplan_api_request_duration_seconds"
    "API request duration" ["method"; "endpoint"]
    [0.01; 0.025; 0.05; 0.1; 0.25; 0.5; 1.0; 2.5; 5.0]%float.

Definition API_ERRORS_TOTAL : instrument :=
  Instrument Counter "careplan_api_errors_total"
    "Total API errors" ["method"; "endpoint"; "error_type"] [].

Definition DB_QUERY_DURATION_SECONDS : instrument :=
  Instrument Histogram "careplan_db_query_duration_seconds"
    "Database query duration" ["operation"]
    [0.001; 0.005; 0.01; 0.025; 0.05; 0.1; 0.25; 0.5]%float.

Definition CARE_PLAN_SUCCESS_RATE : instrument :=
  Instrument Gauge "careplan_success_rate"
    "Rolling success rate of care plan generation (SLI)" [] [].

Definition CARE_PLAN_P95_LATENCY_SECONDS : instrument :=
  Instrument Gauge "careplan_p95_latency_seconds"
    "p95 latency for care plan generation (SLI)" [] [].

(** Every instrument the module creates, in the order of the file. *)
Definition instruments : list instrument :=
  [ APP_INFO; ORDER_CREATED_TOTAL; ORDER_CREATE_DURATION_SECONDS;
    DUPLICATE_DETECTION_TOTAL; CARE_PLAN_GENERATION_TOTAL;
    CARE_PLAN_GENERATION_DURATION_SECONDS; CARE_PLAN_QUEUE_SIZE;
    CARE_PLAN_QUEUED_TOTAL; CARE_PLAN_RETRY_TOTAL; LLM_REQUEST_TOTAL;
    LLM_REQUEST_DURATION_SECONDS; LLM_TOKENS_USED_TOTAL;
    LLM_COST_DOLLARS_TOTAL; API_REQUEST_TOTAL; API_REQUEST_DURATION_SECONDS;
    API_ERRORS_TOTAL; DB_QUERY_DURATION_SECONDS; CARE_PLAN_SUCCESS_RATE;
    CARE_PLAN_P95_LATENCY_SECONDS ].

(** ** Helper functions *)

(** One value of [LLM_PRICING]: dollars per 1000 tokens. *)
Record pricing : Type := Pricing { input : float; output : float }.

Definition LLM_PRICING : gmap string pricing :=
  list_to_map
    [ ("claude-sonnet-4-20250514", Pricing 0.003 0.015);
      ("claude-3-5-sonnet-20241022", Pricing 0.003 0.015);
      ("claude-3-opus-20240229", Pricing 0.015 0.075);
      ("gpt-4o", Pricing 0.005 0.015);
      ("gpt-4o-mini", Pricing 0.00015 0.0006);
      ("gpt-4-turbo", Pricing 0.01 0.03) ].

Definition default_pricing : pricing := Pricing 0.01 0.03.

(** The two assignments of [record_llm_cost] before the counter is touched:
    [pricing = LLM_PRICING.get(model, default)] and the [cost] expression. *)
Definition llm_cost (model : string) (prompt_tokens completion_tokens : Z)
  : result float :=
  let pricing := default default_pricing (LLM_PRICING !! model) in
  let? p := Py.int_truediv prompt_tokens 1000 in
  let? c := Py.int_truediv completion_tokens 1000 in
  Ok ((p * input pricing) + (c * output pricing))%float.

(** The [cost] expression when both token counts are below [2^53] in
    absolute value, where [int / int] is the division of two doubles. *)
Definition cost_expr (pr : pricing) (p c : Z) : float :=
  (Py.small_int_to_float p / 1000 * input pr
   + Py.small_int_to_float c / 1000 * output pr)%float.

Definition record_llm_cost (provider model : string)
    (prompt_tokens completion_tokens : Z) : M unit :=
  let* cost := lift (llm_cost model prompt_tokens completion_tokens) in
  let* child := lift (labels LLM_COST_DOLLARS_TOTAL
                        [("provider", provider); ("model", model)]) in
  inc LLM_COST_DOLLARS_TOTAL child cost.

Definition init_app_info (version environment : string) : M unit :=
  info APP_INFO {[ "version" := version; "environment" := environment ]}.

(** The registry when the module has just been imported. *)
Definition fresh : registry := ∅.

Definition cost_key (provider model : string) : string * list string :=
  (name LLM_COST_DOLLARS_TOTAL, [provider; model]).

(** The accumulator of the cost counter for [(provider, model)]. *)
Abbreviation cost_counter st provider model :=
  (counter_value st LLM_COST_DOLLARS_TOTAL [provider; model]).

(** ** The spec's table of required instruments *)

Definition required_instruments : list (string * kind * list string * list float) :=
  [ ("careplan_app", Info, [], []);
    ("careplan_order_created_total", Counter, ["status"], []);
    ("careplan_order_create_duration_seconds", Histogram, [],
       [0.05; 0.1; 0.25; 0.5; 1.0; 2.5; 5.0; 10.0]%float);
    ("careplan_duplicate_detection_total", Counter, ["entity_type"; "result"], []);
    ("careplan_generation_total", Counter, ["status"], []);
    ("careplan_generation_duration_seconds", Histogram, [],
       [1.0; 2.5; 5.0; 10.0; 20.0; 30.0; 60.0; 120.0]%float);
    ("careplan_queue_size", Gauge, [], []);
    ("careplan_queued_total", Counter, ["status"], []);
    ("careplan_retry_total", Counter, [], []);
    ("careplan_llm_request_total", Counter, ["provider"; "status"], []);
    ("careplan_llm_request_duration_seconds", Histogram, ["provider"],
       [0.5; 1.0; 2.5; 5.0; 10.0; 20.0; 30.0; 60.0]%float);
    ("careplan_llm_tokens_total", Counter, ["provider"; "token_type"], []);
    ("careplan_llm_cost_dollars_total", Counter, ["provider"; "model"], []);
    ("careplan_api_request_total", Counter, ["method"; "endpoint"; "status_code"], []);
    ("careplan_api_request_duration_seconds", Histogram, ["method"; "endpoint"],
       [0.01; 0.025; 0.05; 0.1; 0.25; 0.5; 1.0; 2.5; 5.0]%float);
    ("careplan_api_errors_total", Counter, ["method"; "endpoint"; "error_type"], []);
    ("careplan_db_query_duration_seconds", Histogram, ["operation"],
       [0.001; 0.005; 0.01; 0.025; 0.05; 0.1; 0.25; 0.5]%float);
    ("careplan_success_rate", Gauge, [], []);
    ("careplan_p95_latency_seconds", Gauge, [], []) ].

Definition declared (m : instrument) : string * kind * list string * list float :=
  (name m, kind_of m, labelnames m, buckets m).

(** Strictly ascending bounds, by the float comparison. *)
Fixpoint ascending (bounds : list float) : bool :=
  match bounds with
  | [] => true
  | b :: bs =>
    match bs with
    | [] => true
    | b' :: _ => (b <? b')%float && ascending bs
    end
  end.

(** Python's [==] on floats, with NaN identified with itself: the two
    floats denote the same number (or are both NaN). *)
Definition same_number (x y : float) : bool :=
  (x =? y)%float || (is_nan x && is_nan y).

(** The left-to-right float sum [((0.0 + a1) + a2) + ...] from [start]. *)
Definition fsum (start : float) (amounts : list float) : float :=
  fold_left PrimFloat.add amounts start.



(** ** Vocabulary for the facts about binary64 arithmetic *)

(** A float that is not below zero: any zero, [+Inf], or a positive
    finite number. *)
Definition sf_nonneg (x : spec_float) : bool :=
  match x with
  | S754_nan => false
  | S754_zero _ => true
  | S754_infinity s => negb s
  | S754_finite s _ _ => negb s
  end.

(** A positive finite float. *)
Definition sf_pos_finite (x : spec_float) : bool :=
  match x with
  | S754_finite false _ _ => true
  | _ => false
  end.

Definition nonneg (x : float) : bool := sf_nonneg (Prim2SF x).
Definition pos_finite (x : float) : bool := sf_pos_finite (Prim2SF x).

(** The float that rounding ends with: mantissa [m], exponent [e]. *)
Definition pack (s : bool) (m e : Z) : spec_float :=
  match m with
  | Z0 => S754_zero s
  | Zpos q => if e <=? emax - prec then S754_finite s q e else S754_infinity s
  | Zneg _ => S754_nan
  end.

(** A float with a clear sign bit that is not NaN: [+0.0], [+Inf] or a
    positive finite number. *)
Definition sf_plus (x : spec_float) : bool :=
  match x with
  | S754_zero s | S754_infinity s | S754_finite s _ _ => negb s
  | S754_nan => false
  end.

Definition plus (x : float) : bool := sf_plus (Prim2SF x).

(** ** Sequences of helper calls *)

(** A call of one of the module's two helper functions. *)
Inductive helper_call : Type :=
  | RecordLLMCost (provider model : string) (prompt_tokens completion_tokens : Z)
  | InitAppInfo (version environment : string).

Definition call (h : helper_call) : M unit :=
  match h with
  | RecordLLMCost provider model prompt_tokens completion_tokens =>
    record_llm_cost provider model prompt_tokens completion_tokens
  | InitAppInfo version environment => init_app_info version environment
  end.

(** The costs, in call order, of the [record_llm_cost] calls made for
    [(provider, model)]. *)
Fixpoint costs_of (provider model : string) (hs : list helper_call) : list float :=
  match hs with
  | [] => []
  | RecordLLMCost provider' model' p c :: hs' =>
    if bool_decide (provider' = provider /\ model' = model)
    then match llm_cost model' p c with
         | Ok cost => cost :: costs_of provider model hs'
         | Raise _ => costs_of provider model hs'
         end
    else costs_of provider model hs'
  | InitAppInfo _ _ :: hs' => costs_of provider model hs'
  end.

(** The record of the last [init_app_info] call, [d] if there is none. *)
Fixpoint last_info (d : gmap string string) (hs : list helper_call)
  : gmap string string :=
  match hs with
  | [] => d
  | RecordLLMCost _ _ _ _ :: hs' => last_info d hs'
  | InitAppInfo version environment :: hs' =>
    last_info {[ "version" := version; "environment" := environment ]} hs'
  end.

(** The token counts of a call are not negative. *)
Definition nonneg_tokens (h : helper_call) : bool :=
  match h with
  | RecordLLMCost _ _ p c => (0 <=? p) && (0 <=? c)
  | InitAppInfo _ _ => true
  end.

(** The token counts of a call are in [0, 2^53). *)
Definition small_tokens (h : helper_call) : bool :=
  match h with
  | RecordLLMCost _ _ p c => (0 <=? p) && (p <? 2 ^ 53) && (0 <=? c) && (c <? 2 ^ 53)
  | InitAppInfo _ _ => true
  end.

(** No counter child holds a negative value or NaN. *)
Definition counters_nonneg (st : registry) : Prop :=
  forall k v, st !! k = Some (CounterValue v) -> nonneg v = true.

(** [s] ends with [suffix]. *)
Definition ends_with (suffix s : string) : bool :=
  String.eqb
    (String.substring (String.length s - String.length suffix)
       (String.length suffix) s)
    suffix
  && (String.length suffix <=? String.length s)%nat.

(** The naming convention of the module's docstring, per instrument:
    the namespace prefix, [_total] for counters, [_seconds] for
    histograms. *)
Definition well_named (m : instrument) : bool :=
  String.prefix "careplan_" (name m)
  && match kind_of m with
     | Counter => ends_with "_total" (name m)
     | Histogram => ends_with "_seconds" (name m)
     | Gauge | Info => true
     end.

(** * Facts about binary64 arithmetic

    The primitive operations are related to their specification on
    [spec_float] by the kernel's axioms ([add_spec], [FloatAxioms.ltb_spec], ...). *)

Module FloatFacts.

(** *** Right shifts keep a mantissa non-negative *)

Lemma shr_1_nonneg mrs : 0 <= shr_m mrs -> 0 <= shr_m (shr_1 mrs).
Proof.
  destruct mrs as [m r s]; simpl.
  destruct m as [|[p|p|]|[p|p|]]; simpl; lia.
Qed.

Lemma iter_pos_shr_1_nonneg n : forall mrs,
  0 <= shr_m mrs -> 0 <= shr_m (SpecFloat.iter_pos shr_1 n mrs).
Proof.
  induction n as [n IH|n IH|]; intros mrs H; simpl.
  - apply IH, IH, shr_1_nonneg, H.
  - apply IH, IH, H.
  - apply shr_1_nonneg, H.
Qed.

Lemma shr_m_record_of_loc m l : shr_m (shr_record_of_loc m l) = m.
Proof. destruct l as [|[]]; reflexivity. Qed.

Lemma shr_nonneg mrs e n :
  0 <= shr_m mrs -> 0 <= shr_m (fst (shr mrs e n)).
Proof.
  intros H. destruct n; simpl; auto using iter_pos_shr_1_nonneg.
Qed.

Lemma shr_fexp_nonneg m e l :
  0 <= m -> 0 <= shr_m (fst (shr_fexp prec emax m e l)).
Proof.
  intros H. unfold shr_fexp. apply shr_nonneg.
  rewrite shr_m_record_of_loc. exact H.
Qed.

Lemma round_nearest_even_nonneg m l :
  0 <= m -> 0 <= round_nearest_even m l.
Proof.
  intros H. destruct l as [|[]]; simpl; try lia.
  destruct (Z.even m); lia.
Qed.

(** Rounding a non-negative mantissa gives a zero, a finite float or an
    infinity of the requested sign, never NaN. *)
Lemma binary_round_aux_sign s m e l :
  0 <= m ->
  match binary_round_aux prec emax s m e l with
  | S754_zero s' | S754_infinity s' | S754_finite s' _ _ => s' = s
  | S754_nan => False
  end.
Proof.
  intros H. unfold binary_round_aux.
  pose proof (shr_fexp_nonneg m e l H) as H1.
  destruct (shr_fexp prec emax m e l) as [mrs' e'] eqn:E1; simpl in H1.
  pose proof (shr_fexp_nonneg _ e' loc_Exact
                (round_nearest_even_nonneg _ (loc_of_shr_record mrs') H1)) as H2.
  destruct (shr_fexp prec emax _ e' loc_Exact) as [mrs'' e''] eqn:E2; simpl in H2.
  destruct (shr_m mrs'') as [|q|q]; [reflexivity| |lia].
  destruct (e'' <=? emax - prec); reflexivity.
Qed.

Lemma binary_round_aux_nonneg m e l :
  0 <= m -> sf_nonneg (binary_round_aux prec emax false m e l) = true.
Proof.
  intros H. pose proof (binary_round_aux_sign false m e l H) as S.
  destruct (binary_round_aux prec emax false m e l); simpl; subst; tauto.
Qed.

Lemma binary_round_nonneg m e :
  sf_nonneg (binary_round prec emax false m e) = true.
Proof.
  unfold binary_round.
  destruct (shl_align m e _) as [mz ez].
  apply binary_round_aux_nonneg. lia.
Qed.

Lemma binary_normalize_nonneg m e :
  0 <= m -> sf_nonneg (binary_normalize prec emax m e false) = true.
Proof.
  intros H. destruct m as [|p|p]; simpl; [reflexivity| |lia].
  apply binary_round_nonneg.
Qed.

(** *** Signs of the arithmetic operations *)

Lemma SFadd_nonneg x y :
  sf_nonneg x = true -> sf_nonneg y = true ->
  sf_nonneg (SFadd prec emax x y) = true.
Proof.
  destruct x as [[]|[]| |[] mx ex], y as [[]|[]| |[] my ey];
    try discriminate; try reflexivity; intros _ _.
  unfold SFadd. apply binary_normalize_nonneg.
  unfold cond_Zopp. lia.
Qed.

Lemma SFmul_nonneg x y :
  sf_nonneg x = true -> sf_pos_finite y = true ->
  sf_nonneg (SFmul prec emax x y) = true.
Proof.
  destruct x as [[]|[]| |[] mx ex], y as [[]|[]| |[] my ey];
    try discriminate; try reflexivity; intros _ _.
  unfold SFmul. apply binary_round_aux_nonneg. lia.
Qed.

Lemma SFdiv_core_binary_nonneg m1 e1 m2 e2 :
  0 <= m1 -> 0 < m2 ->
  0 <= fst (fst (SFdiv_core_binary prec emax m1 e1 m2 e2)).
Proof.
  intros H1 H2. unfold SFdiv_core_binary.
  set (s := _ - _ - _).
  set (m' := match s with Z0 => m1 | Zpos _ => Z.shiftl m1 s | Zneg _ => 0 end).
  assert (0 <= m') as Hm'.
  { subst m'. destruct s; try lia. apply Z.shiftl_nonneg. exact H1. }
  pose proof (Z_div_mod m' m2 ltac:(lia)) as D.
  destruct (Z.div_eucl m' m2) as [q r]; simpl.
  destruct D as [D1 D2]. nia.
Qed.

Lemma SFdiv_nonneg x y :
  sf_nonneg x = true -> sf_pos_finite y = true ->
  sf_nonneg (SFdiv prec emax x y) = true.
Proof.
  destruct x as [[]|[]| |[] mx ex], y as [[]|[]| |[] my ey];
    try discriminate; try reflexivity; intros _ _.
  unfold SFdiv.
  pose proof (SFdiv_core_binary_nonneg (Z.pos mx) ex (Z.pos my) ey
                ltac:(lia) ltac:(lia)) as H.
  destruct (SFdiv_core_binary prec emax _ ex _ ey) as [[mz ez] lz]; simpl in H.
  apply binary_round_aux_nonneg, H.
Qed.

Lemma add_nonneg x y :
  nonneg x = true -> nonneg y = true -> nonneg (x + y) = true.
Proof. unfold nonneg. rewrite add_spec. apply SFadd_nonneg. Qed.

Lemma mul_nonneg x y :
  nonneg x = true -> pos_finite y = true -> nonneg (x * y) = true.
Proof. unfold nonneg, pos_finite. rewrite mul_spec. apply SFmul_nonneg. Qed.

Lemma div_nonneg x y :
  nonneg x = true -> pos_finite y = true -> nonneg (x / y) = true.
Proof. unfold nonneg, pos_finite. rewrite div_spec. apply SFdiv_nonneg. Qed.

Lemma of_uint63_nonneg n : nonneg (of_uint63 n) = true.
Proof.
  unfold nonneg. rewrite of_uint63_spec.
  apply binary_normalize_nonneg.
  pose proof (Uint63.to_Z_bounded n). lia.
Qed.

(** A non-negative float is not below zero. *)
Lemma nonneg_not_ltb_zero x : nonneg x = true -> (x <? 0)%float = false.
Proof.
  unfold nonneg. rewrite FloatAxioms.ltb_spec.
  change (Prim2SF 0) with (S754_zero false).
  destruct (Prim2SF x) as [[]|[]| |[] mx ex]; simpl; try discriminate; reflexivity.
Qed.

(** *** Adding zero *)

Lemma SFcompare_refl x : x <> S754_nan -> SFcompare x x = Some Eq.
Proof.
  destruct x as [[]|[]| |[] m e]; simpl; try congruence; intros _;
    rewrite Z.compare_refl, Pos.compare_cont_refl; reflexivity.
Qed.

Lemma is_nan_spec x : is_nan x = true <-> Prim2SF x = S754_nan.
Proof.
  unfold is_nan. rewrite FloatAxioms.eqb_spec. unfold SFeqb.
  destruct (Prim2SF x) as [[]|[]| |[] m e] eqn:E; simpl;
    try rewrite Z.compare_refl, Pos.compare_cont_refl; simpl;
    split; (congruence || discriminate).
Qed.

(** [x + 0.0] is the number [x] (only the sign of a zero may change). *)
Lemma add_zero_same x : same_number (x + 0) x = true.
Proof.
  unfold same_number.
  destruct (is_nan x) eqn:N.
  - apply is_nan_spec in N.
    assert (is_nan (x + 0) = true) as ->.
    { apply is_nan_spec. rewrite add_spec, N. reflexivity. }
    apply orb_true_r.
  - apply orb_true_iff. left.
    rewrite FloatAxioms.eqb_spec, add_spec.
    change (Prim2SF 0) with (S754_zero false).
    assert (Prim2SF x <> S754_nan) as NN.
    { intros H. apply is_nan_spec in H. congruence. }
    unfold SFeqb.
    destruct (Prim2SF x) as [[]|[]| |[] m e] eqn:E; try congruence;
      try reflexivity; unfold SF64add, SFadd;
      rewrite SFcompare_refl by discriminate; reflexivity.
Qed.

(** *** The order on floats *)



Lemma SFleb_trans x y z :
  SFleb x y = true -> SFleb y z = true -> SFleb x z = true.
Proof.
  unfold SFleb.
  destruct x as [[]|[]| |[] m1 e1], y as [[]|[]| |[] m2 e2],
           z as [[]|[]| |[] m3 e3];
    simpl; try discriminate; try reflexivity;
    change (Pos.compare_cont Eq) with Pos.compare;
    destruct (Z.compare_spec e1 e2), (Z.compare_spec e2 e3),
             (Z.compare_spec e1 e3);
    try discriminate; try reflexivity; try lia;
    destruct (Pos.compare_spec m1 m2), (Pos.compare_spec m2 m3),
             (Pos.compare_spec m1 m3);
    simpl; try discriminate; try reflexivity; try lia.
Qed.

Lemma leb_trans x y z :
  (x <=? y)%float = true -> (y <=? z)%float = true -> (x <=? z)%float = true.
Proof. rewrite !FloatAxioms.leb_spec. apply SFleb_trans. Qed.


(** *** Rounding is monotone *)

(** *** Number of binary digits *)
Lemma digits2_pos_size p : digits2_pos p = Pos.size p.
Proof. induction p; simpl; congruence. Qed.

Lemma Zdigits2_log2 m : 0 < m -> Zdigits2 m = Z.log2 m + 1.
Proof.
  destruct m as [|p|p]; try lia. intros _. simpl.
  rewrite digits2_pos_size.
  destruct p; simpl; lia.
Qed.

Lemma Zdigits2_bounds m : 0 < m -> 2 ^ (Zdigits2 m - 1) <= m < 2 ^ Zdigits2 m.
Proof.
  intros H. rewrite Zdigits2_log2 by exact H.
  replace (Z.log2 m + 1 - 1) with (Z.log2 m) by lia.
  replace (Z.log2 m + 1) with (Z.succ (Z.log2 m)) by lia.
  apply Z.log2_spec, H.
Qed.

Lemma Zdigits2_pos m : 0 < m -> 0 < Zdigits2 m.
Proof.
  intros H. rewrite Zdigits2_log2 by exact H.
  pose proof (Z.log2_nonneg m). lia.
Qed.

Lemma Zdigits2_le m n : 0 < m -> m <= n -> Zdigits2 m <= Zdigits2 n.
Proof.
  intros H1 H2. rewrite !Zdigits2_log2 by lia.
  pose proof (Z.log2_le_mono m n H2). lia.
Qed.

Lemma Zdigits2_mul_pow2 m k :
  0 < m -> 0 <= k -> Zdigits2 (m * 2 ^ k) = Zdigits2 m + k.
Proof.
  intros H1 H2.
  assert (0 < 2 ^ k) by (apply Z.pow_pos_nonneg; lia).
  rewrite !Zdigits2_log2 by nia.
  rewrite Z.log2_mul_pow2 by lia. lia.
Qed.

(** A mantissa below [2^d] has at most [d] digits. *)
Lemma Zdigits2_lt_pow2 m d : 0 < m -> 0 <= d -> m < 2 ^ d -> Zdigits2 m <= d.
Proof.
  intros H1 H2 H3. rewrite Zdigits2_log2 by exact H1.
  assert (Z.log2 m < d); [|lia].
  apply Z.log2_lt_pow2; assumption.
Qed.

Lemma Zdigits2_ge_pow2 m d : 0 <= d -> 2 ^ d <= m -> d < Zdigits2 m.
Proof.
  intros H2 H3.
  assert (0 < 2 ^ d) by (apply Z.pow_pos_nonneg; lia).
  rewrite Zdigits2_log2 by lia.
  assert (d <= Z.log2 m); [|lia].
  apply Z.log2_le_pow2; lia.
Qed.

(** *** Right shifts divide the mantissa *)
Lemma shr_1_div2 mrs : 0 <= shr_m mrs -> shr_m (shr_1 mrs) = shr_m mrs / 2.
Proof.
  destruct mrs as [m r s].
  destruct m as [|[p|p|]|p]; cbn [shr_1 shr_m]; intros H; try lia.
  - reflexivity.
  - apply (Z.div_unique_pos _ 2 (Z.pos p) 1); lia.
  - apply (Z.div_unique_pos _ 2 (Z.pos p) 0); lia.
  - reflexivity.
Qed.

Lemma shr_1_nonneg' mrs : 0 <= shr_m mrs -> 0 <= shr_m (shr_1 mrs).
Proof.
  intros H. rewrite shr_1_div2 by exact H. apply Z.div_pos; lia.
Qed.

Lemma iter_pos_shr_1_div n : forall mrs,
  0 <= shr_m mrs ->
  shr_m (SpecFloat.iter_pos shr_1 n mrs) = shr_m mrs / 2 ^ Z.pos n.
Proof.
  assert (forall k, 0 < 2 ^ Z.pos k) as P by (intros; apply Z.pow_pos_nonneg; lia).
  induction n as [n IH|n IH|]; intros mrs H; cbn [SpecFloat.iter_pos].
  - assert (2 ^ Z.pos n~1 = 2 * (2 ^ Z.pos n * 2 ^ Z.pos n)) as ->.
    { replace (Z.pos n~1) with (1 + Z.pos n + Z.pos n) by lia.
      rewrite !Z.pow_add_r by lia. lia. }
    pose proof (shr_1_nonneg' mrs H) as H1.
    pose proof (IH _ H1) as E1.
    assert (0 <= shr_m (SpecFloat.iter_pos shr_1 n (shr_1 mrs))) as H2.
    { rewrite E1. apply Z.div_pos; [exact H1|apply P]. }
    rewrite (IH _ H2), E1, shr_1_div2 by exact H.
    pose proof (P n).
    rewrite !Z.div_div by lia. reflexivity.
  - assert (2 ^ Z.pos n~0 = 2 ^ Z.pos n * 2 ^ Z.pos n) as ->.
    { replace (Z.pos n~0) with (Z.pos n + Z.pos n) by lia.
      rewrite !Z.pow_add_r by lia. lia. }
    pose proof (IH _ H) as E1.
    assert (0 <= shr_m (SpecFloat.iter_pos shr_1 n mrs)) as H2.
    { rewrite E1. apply Z.div_pos; [exact H|apply P]. }
    rewrite (IH _ H2), E1.
    pose proof (P n).
    rewrite !Z.div_div by lia. reflexivity.
  - rewrite shr_1_div2 by exact H. reflexivity.
Qed.

(** [shr_fexp] brings the exponent up to the canonical one. *)
Lemma shr_fexp_spec m e l :
  0 <= m ->
  let e' := Z.max e (fexp prec emax (Zdigits2 m + e)) in
  snd (shr_fexp prec emax m e l) = e'
  /\ shr_m (fst (shr_fexp prec emax m e l)) = m / 2 ^ (e' - e)
  /\ (e' = e -> fst (shr_fexp prec emax m e l) = shr_record_of_loc m l).
Proof.
  intros H e'. unfold shr_fexp, shr.
  destruct (fexp prec emax (Zdigits2 m + e) - e) as [|n|n] eqn:E; simpl.
  - replace e' with e by lia. rewrite Z.sub_diag, Z.div_1_r.
    rewrite shr_m_record_of_loc. auto.
  - replace e' with (e + Z.pos n) by lia.
    rewrite iter_pos_shr_1_div by (rewrite shr_m_record_of_loc; exact H).
    rewrite shr_m_record_of_loc.
    replace (e + Z.pos n - e) with (Z.pos n) by lia.
    repeat split; lia.
  - replace e' with e by lia. rewrite Z.sub_diag, Z.div_1_r.
    rewrite shr_m_record_of_loc. auto.
Qed.

Lemma round_nearest_even_bounds m l :
  m <= round_nearest_even m l <= m + 1.
Proof.
  destruct l as [|[]]; simpl; try lia. destruct (Z.even m); lia.
Qed.

Lemma pos_iter_xO m n : Z.pos (Pos.iter xO m n) = Z.pos m * 2 ^ Z.pos n.
Proof.
  revert m. induction n as [|n IH] using Pos.peano_ind; intros m.
  - simpl. lia.
  - rewrite Pos.iter_succ, Pos2Z.inj_xO, IH, Pos2Z.inj_succ, Z.pow_succ_r by lia. lia.
Qed.

Lemma shl_align_spec m e e' :
  let r := shl_align m e e' in
  snd r = Z.min e e' /\ Z.pos (fst r) = Z.pos m * 2 ^ (e - Z.min e e').
Proof.
  unfold shl_align. destruct (e' - e) as [|d|d] eqn:E; simpl.
  - replace (Z.min e e') with e by lia. rewrite Z.sub_diag. lia.
  - replace (Z.min e e') with e by lia. rewrite Z.sub_diag. lia.
  - replace (Z.min e e') with e' by lia. rewrite pos_iter_xO.
    replace (e - e') with (Z.pos d) by lia. lia.
Qed.

Lemma binary_round_aux_spec s m e l :
  0 <= m ->
  let E1 := Z.max e (fexp prec emax (Zdigits2 m + e)) in
  exists m2,
    m / 2 ^ (E1 - e) <= m2 <= m / 2 ^ (E1 - e) + 1
    /\ (E1 = e -> l = loc_Exact -> m2 = m)
    /\ binary_round_aux prec emax s m e l
       = let e2 := Z.max E1 (fexp prec emax (Zdigits2 m2 + E1)) in
         pack s (m2 / 2 ^ (e2 - E1)) e2.
Proof.
  intros H E1. unfold binary_round_aux.
  destruct (shr_fexp_spec m e l H) as (He & Hm & Hx). fold E1 in He, Hm, Hx.
  destruct (shr_fexp prec emax m e l) as [mrs' e'] eqn:S1. simpl in He, Hm, Hx.
  subst e'.
  set (m2 := round_nearest_even (shr_m mrs') (loc_of_shr_record mrs')).
  exists m2.
  pose proof (round_nearest_even_bounds (shr_m mrs') (loc_of_shr_record mrs')) as B.
  fold m2 in B. rewrite Hm in B.
  split; [exact B|]. split.
  { intros HE Hl. specialize (Hx HE). subst mrs' l. reflexivity. }
  assert (0 <= m2) as H2.
  { assert (0 < 2 ^ (E1 - e)) by (apply Z.pow_pos_nonneg; lia).
    pose proof (Z.div_pos m (2 ^ (E1 - e)) H ltac:(lia)). lia. }
  destruct (shr_fexp_spec m2 E1 loc_Exact H2) as (He2 & Hm2 & _).
  destruct (shr_fexp prec emax m2 E1 loc_Exact) as [mrs'' e''] eqn:S2.
  simpl in He2, Hm2. subst e''. rewrite Hm2. reflexivity.
Qed.

Lemma binary_round_spec s M e :
  let E0 := fexp prec emax (Z.pos (digits2_pos M) + e) in
  exists m2,
    (E0 <= e -> m2 = Z.pos M * 2 ^ (e - E0))
    /\ (e <= E0 -> Z.pos M / 2 ^ (E0 - e) <= m2 <= Z.pos M / 2 ^ (E0 - e) + 1)
    /\ binary_round prec emax s M e
       = let e2 := Z.max E0 (fexp prec emax (Zdigits2 m2 + E0)) in
         pack s (m2 / 2 ^ (e2 - E0)) e2.
Proof.
  intros E0. unfold binary_round. fold E0.
  destruct (shl_align_spec M e E0) as [Hs Hf].
  destruct (shl_align M e E0) as [mz ez]. simpl in Hs, Hf. subst ez.
  destruct (binary_round_aux_spec s (Z.pos mz) (Z.min e E0) loc_Exact ltac:(lia))
    as (m2 & B & X & ->).
  assert (0 <= e - Z.min e E0) as Hk by lia.
  assert (Zdigits2 (Z.pos mz) + Z.min e E0 = Z.pos (digits2_pos M) + e) as HD.
  { rewrite Hf, Zdigits2_mul_pow2 by lia. simpl. lia. }
  rewrite HD in *. fold E0 in B, X |- *.
  replace (Z.max (Z.min e E0) E0) with E0 in * by lia.
  exists m2. split; [|split; [|reflexivity]].
  - intros HE. replace (Z.min e E0) with E0 in * by lia.
    rewrite <- Hf. apply X; reflexivity.
  - intros HE. replace (Z.min e E0) with e in * by lia.
    rewrite Z.sub_diag, Z.mul_1_r in Hf. rewrite <- Hf. exact B.
Qed.

Lemma pow2_pos k : 0 <= k -> 0 < 2 ^ k.
Proof. intros. apply Z.pow_pos_nonneg; lia. Qed.

(** A mantissa with [d] digits keeps at least [2^(p-1)] after losing
    [d - p] of them. *)
Lemma div_pow2_digits m p :
  0 < m -> 0 < p -> p <= Zdigits2 m ->
  2 ^ (p - 1) <= m / 2 ^ (Zdigits2 m - p).
Proof.
  intros Hm Hp Hd.
  pose proof (Zdigits2_bounds m Hm) as [B _].
  apply Z.div_le_lower_bound; [apply pow2_pos; lia|].
  rewrite <- Z.pow_add_r by lia.
  replace (Zdigits2 m - p + (p - 1)) with (Zdigits2 m - 1) by lia. exact B.
Qed.

(** Rounding a magnitude at or above a representable one stays at or
    above it. *)
Lemma binary_round_ge s M e mx ex :
  fexp prec emax (Zdigits2 (Z.pos mx) + ex) = ex ->
  e <= ex ->
  Z.pos mx * 2 ^ (ex - e) <= Z.pos M ->
  match binary_round prec emax s M e with
  | S754_infinity s' => s' = s
  | S754_finite s' m' e' => s' = s /\ (ex < e' \/ (e' = ex /\ (mx <= m')%positive))
  | _ => False
  end.
Proof.
  intros Hcan He HM.
  destruct (binary_round_spec s M e) as (m2 & _ & H2 & ->).
  set (E0 := fexp prec emax (Z.pos (digits2_pos M) + e)) in *.
  pose proof (pow2_pos (ex - e) ltac:(lia)) as Ppow.
  assert (Zdigits2 (Z.pos mx) + (ex - e) <= Zdigits2 (Z.pos M)) as HD.
  { rewrite <- Zdigits2_mul_pow2 by lia. apply Zdigits2_le; [nia|exact HM]. }
  pose proof (Zdigits2_pos (Z.pos mx) ltac:(lia)) as HDx.
  change (Zdigits2 (Z.pos M)) with (Z.pos (digits2_pos M)) in HD.
  assert (ex <= E0) as HE0.
  { subst E0. unfold fexp, SpecFloat.emin, prec, emax in *. lia. }
  specialize (H2 ltac:(lia)).
  assert (0 < m2 /\ (E0 = ex -> Z.pos mx <= m2)) as [Hm2 Hm2x].
  { destruct (Z.eq_dec E0 ex) as [Heq|Hne].
    - assert (Z.pos mx <= Z.pos M / 2 ^ (E0 - e)).
      { rewrite Heq. apply Z.div_le_lower_bound; lia. }
      split; [lia|intros _; lia].
    - assert (E0 - e = Zdigits2 (Z.pos M) - 53) as Hsh.
      { change (Zdigits2 (Z.pos M)) with (Z.pos (digits2_pos M)).
        subst E0. unfold fexp, SpecFloat.emin, prec, emax in *. lia. }
      pose proof (div_pow2_digits (Z.pos M) 53 ltac:(lia) ltac:(lia) ltac:(lia)) as B.
      rewrite <- Hsh in B.
      assert (0 < 2 ^ (53 - 1)) by (apply pow2_pos; lia).
      split; [lia|intros; lia]. }
  cbv zeta.
  set (e2 := Z.max E0 (fexp prec emax (Zdigits2 m2 + E0))).
  assert (0 < m2 / 2 ^ (e2 - E0) /\ (e2 = E0 -> m2 / 2 ^ (e2 - E0) = m2)) as [Hm3 Hm3x].
  { destruct (Z.eq_dec e2 E0) as [Heq|Hne].
    - rewrite Heq, Z.sub_diag, Z.div_1_r. split; [exact Hm2|reflexivity].
    - assert (e2 - E0 = Zdigits2 m2 - 53) as Hsh.
      { subst e2 E0. unfold fexp, SpecFloat.emin, prec, emax in *. lia. }
      pose proof (div_pow2_digits m2 53 Hm2 ltac:(lia) ltac:(lia)) as B.
      rewrite <- Hsh in B.
      assert (0 < 2 ^ (53 - 1)) by (apply pow2_pos; lia).
      split; [lia|intros; lia]. }
  destruct (m2 / 2 ^ (e2 - E0)) as [|q|q] eqn:Eq; try lia.
  unfold pack. destruct (e2 <=? emax - prec); [|reflexivity].
  split; [reflexivity|].
  destruct (Z.eq_dec e2 ex) as [Heq|Hne]; [right|left; lia].
  split; [exact Heq|].
  assert (E0 = ex) as HE by lia.
  specialize (Hm3x ltac:(lia)). specialize (Hm2x HE). lia.
Qed.

(** Rounding a magnitude below a representable one stays at or below it. *)
Lemma binary_round_le s M e mx ex :
  fexp prec emax (Zdigits2 (Z.pos mx) + ex) = ex ->
  ex <= emax - prec ->
  e <= ex ->
  Z.pos M < Z.pos mx * 2 ^ (ex - e) ->
  match binary_round prec emax s M e with
  | S754_zero s' => s' = s
  | S754_finite s' m' e' => s' = s /\ (e' < ex \/ (e' = ex /\ (m' <= mx)%positive))
  | _ => False
  end.
Proof.
  intros Hcan Hmax He HM.
  destruct (binary_round_spec s M e) as (m2 & H1 & H2 & ->).
  set (E0 := fexp prec emax (Z.pos (digits2_pos M) + e)) in *.
  pose proof (pow2_pos (ex - e) ltac:(lia)) as Ppow.
  assert (Zdigits2 (Z.pos M) <= Zdigits2 (Z.pos mx) + (ex - e)) as HD.
  { rewrite <- Zdigits2_mul_pow2 by lia. apply Zdigits2_le; lia. }
  pose proof (Zdigits2_pos (Z.pos mx) ltac:(lia)) as HDx.
  pose proof (Zdigits2_pos (Z.pos M) ltac:(lia)) as HDm.
  change (Zdigits2 (Z.pos M)) with (Z.pos (digits2_pos M)) in HD, HDm.
  assert (E0 <= ex /\ -1074 <= E0 /\ Z.pos (digits2_pos M) + e - 53 <= E0) as (HE0 & Hemin & Hlow).
  { subst E0. unfold fexp, SpecFloat.emin, prec, emax in *. lia. }
  cbv zeta.
  set (e2 := Z.max E0 (fexp prec emax (Zdigits2 m2 + E0))).
  destruct (Z_le_gt_dec E0 e) as [Hcase|Hcase].
  - (* the sum is exact *)
    specialize (H1 Hcase).
    pose proof (pow2_pos (e - E0) ltac:(lia)) as Ppow'.
    assert (Zdigits2 m2 = Z.pos (digits2_pos M) + (e - E0)) as Hd2.
    { rewrite H1, Zdigits2_mul_pow2 by lia. reflexivity. }
    assert (e2 = E0) as ->.
    { subst e2. rewrite Hd2.
      replace (Z.pos (digits2_pos M) + (e - E0) + E0)
        with (Z.pos (digits2_pos M) + e) by lia.
      fold E0. lia. }
    rewrite Z.sub_diag, Z.div_1_r.
    destruct m2 as [|q|q] eqn:Eq; try nia.
    unfold pack. destruct (Z.leb_spec E0 (emax - prec)); [|lia].
    split; [reflexivity|].
    destruct (Z.eq_dec E0 ex) as [Heq|Hne]; [right|left; lia].
    split; [exact Heq|].
    assert (e = ex) as -> by lia. rewrite Heq, Z.sub_diag in H1.
    rewrite Z.sub_diag in HM. lia.
  - (* the sum is rounded *)
    specialize (H2 ltac:(lia)).
    pose proof (pow2_pos (E0 - e) ltac:(lia)) as Ppow'.
    assert (0 <= Z.pos M / 2 ^ (E0 - e)) as Hq0 by (apply Z.div_pos; lia).
    assert (Z.pos M / 2 ^ (E0 - e) < 2 ^ 53) as Hq53.
    { apply Z.div_lt_upper_bound; [lia|].
      rewrite <- Z.pow_add_r by lia.
      pose proof (Zdigits2_bounds (Z.pos M) ltac:(lia)) as [_ B].
      change (Zdigits2 (Z.pos M)) with (Z.pos (digits2_pos M)) in B.
      eapply Z.lt_le_trans; [exact B|].
      apply Z.pow_le_mono_r; lia. }
    assert (m2 = 0 \/ 0 < m2) as [Hz|Hpos] by lia.
    { (* rounded to zero *)
      subst m2. assert (e2 = E0) as ->.
      { subst e2. simpl Zdigits2. unfold fexp, SpecFloat.emin, prec, emax in *. lia. }
      rewrite Z.sub_diag, Z.div_1_r. reflexivity. }
    assert (Zdigits2 m2 <= 54) as Hd54.
    { apply Zdigits2_lt_pow2; lia. }
    pose proof (Zdigits2_pos m2 Hpos) as Hd0.
    assert (E0 <= e2 <= E0 + 1) as He2.
    { subst e2. unfold fexp, SpecFloat.emin, prec, emax in *. lia. }
    pose proof (pow2_pos (e2 - E0) ltac:(lia)) as Ppow2.
    assert (0 <= m2 / 2 ^ (e2 - E0)) as Hm3 by (apply Z.div_pos; lia).
    destruct (Z.eq_dec E0 ex) as [Heq|Hne].
    + (* same exponent as the bound *)
      assert (Z.pos M / 2 ^ (E0 - e) < Z.pos mx) as Hlt.
      { rewrite Heq. apply Z.div_lt_upper_bound; lia. }
      assert (m2 <= Z.pos mx) as Hle by lia.
      pose proof (Zdigits2_le m2 (Z.pos mx) Hpos Hle) as Hdle.
      assert (e2 = E0) as ->.
      { subst e2. rewrite Heq.
        unfold fexp, SpecFloat.emin, prec, emax in *. lia. }
      rewrite Z.sub_diag, Z.div_1_r.
      destruct m2 as [|q|q]; try lia.
      unfold pack. destruct (Z.leb_spec E0 (emax - prec)); [|lia].
      split; [reflexivity|]. right. split; [exact Heq|lia].
    + destruct (m2 / 2 ^ (e2 - E0)) as [|q|q] eqn:Eq; try lia; [reflexivity|].
      unfold pack. destruct (Z.leb_spec e2 (emax - prec)); [|lia].
      split; [reflexivity|].
      destruct (Z.eq_dec e2 ex) as [Heq2|Hne2]; [right|left; lia].
      split; [exact Heq2|].
      assert (e2 - E0 = 1) as Hone by lia.
      rewrite Hone in Eq.
      assert (Z.pos q <= 2 ^ 52) as Hq.
      { rewrite <- Eq. change (2 ^ 52) with (2 ^ 53 / 2 ^ 1).
        apply Z.div_le_mono; lia. }
      assert (Zdigits2 (Z.pos mx) = 53) as Hdx.
      { unfold fexp, SpecFloat.emin, prec, emax in *. lia. }
      pose proof (Zdigits2_bounds (Z.pos mx) ltac:(lia)) as [B _].
      rewrite Hdx in B. change (53 - 1) with 52 in B. lia.
Qed.

Lemma SFltb_refl x : SFltb x x = false.
Proof.
  unfold SFltb.
  destruct x as [[]|[]| |[] m e]; simpl; try reflexivity;
    rewrite Z.compare_refl, Pos.compare_cont_refl; reflexivity.
Qed.

(** Adding a float that is not below zero never gives a float below the
    first operand. *)
Lemma SFadd_not_below x a :
  valid_binary x = true ->
  SFltb a (S754_zero false) = false ->
  SFltb (SFadd prec emax x a) x = false.
Proof.
  intros Hv Ha.
  destruct a as [sa|[]| |[] ma ea]; try discriminate Ha.
  - (* a zero *)
    destruct x as [[]|[]| |sx mx ex], sa; try reflexivity; apply SFltb_refl.
  - (* +Inf *)
    destruct x as [[]|[]| |[] mx ex]; reflexivity.
  - (* NaN *)
    destruct x as [[]|[]| |[] mx ex]; reflexivity.
  - (* a positive finite float *)
    destruct x as [[]|[]| |sx mx ex]; try reflexivity.
    simpl in Hv. unfold bounded, canonical_mantissa in Hv.
    apply andb_true_iff in Hv as [Hcan Hmax].
    apply Z.eqb_eq in Hcan. apply Z.leb_le in Hmax.
    unfold SFadd.
    set (ez := Z.min ex ea).
    destruct (shl_align_spec mx ex ez) as [_ Hx].
    destruct (shl_align_spec ma ea ez) as [_ Hy].
    replace (Z.min ex ez) with ez in Hx by lia.
    replace (Z.min ea ez) with ez in Hy by lia.
    set (mx' := fst (shl_align mx ex ez)) in *.
    set (ma' := fst (shl_align ma ea ez)) in *.
    destruct sx; unfold cond_Zopp.
    + (* x negative *)
      destruct (- Z.pos mx' + Z.pos ma') as [|q|q] eqn:Es; unfold binary_normalize.
      * reflexivity.
      * pose proof (binary_round_nonneg q ez) as N.
        destruct (binary_round prec emax false q ez) as [[]|[]| |[] m' e'];
          try discriminate N; reflexivity.
      * pose proof (binary_round_le true q ez mx ex Hcan Hmax ltac:(lia) ltac:(lia)) as L.
        destruct (binary_round prec emax true q ez) as [s'|s'| |s' m' e'];
          try contradiction; [subst s'; reflexivity|].
        destruct L as [-> L]. unfold SFltb. simpl.
        change (Pos.compare_cont Eq) with Pos.compare.
        destruct L as [L|[-> L]].
        -- apply Z.compare_lt_iff in L. rewrite L. reflexivity.
        -- rewrite Z.compare_refl.
           destruct (Pos.compare_spec m' mx); try reflexivity. lia.
    + (* x positive *)
      change (Z.pos mx' + Z.pos ma') with (Z.pos (mx' + ma')).
      unfold binary_normalize.
      pose proof (binary_round_ge false (mx' + ma') ez mx ex Hcan ltac:(lia) ltac:(lia)) as G.
      destruct (binary_round prec emax false (mx' + ma') ez) as [s'|s'| |s' m' e'];
        try contradiction; [subst s'; reflexivity|].
      destruct G as [-> G]. unfold SFltb. simpl.
      change (Pos.compare_cont Eq) with Pos.compare.
      destruct G as [G|[-> G]].
      -- apply Z.compare_gt_iff in G. rewrite G. reflexivity.
      -- rewrite Z.compare_refl.
         destruct (Pos.compare_spec m' mx); try reflexivity. lia.
Qed.

Lemma add_not_ltb x a :
  (a <? 0)%float = false -> (x + a <? x)%float = false.
Proof.
  rewrite !FloatAxioms.ltb_spec, add_spec. intros H.
  apply SFadd_not_below; [apply Prim2SF_valid|exact H].
Qed.

End FloatFacts.

(** * The helpers, step by step *)

Import FloatFacts.

Lemma labels_cost_child (provider model : string) :
  labels LLM_COST_DOLLARS_TOTAL [("provider", provider); ("model", model)]
  = Ok [provider; model].
Proof. reflexivity. Qed.

(** [record_llm_cost] is the cost expression followed by one [inc] on the
    child [(provider, model)] of the cost counter. *)
Lemma record_llm_cost_eq (provider model : string) (p c : Z) (st : registry) :
  record_llm_cost provider model p c st =
  match llm_cost model p c with
  | Ok cost => inc LLM_COST_DOLLARS_TOTAL [provider; model] cost st
  | Raise e => Raise e
  end.
Proof.
  unfold record_llm_cost, bind, lift.
  destruct (llm_cost model p c) as [cost|e]; [|reflexivity].
  rewrite labels_cost_child. reflexivity.
Qed.

Lemma record_llm_cost_on (st : registry) (provider model : string) (p c : Z)
    (cost : float) :
  llm_cost model p c = Ok cost -> (cost <? 0)%float = false ->
  record_llm_cost provider model p c st
  = Ok (tt, <[cost_key provider model :=
               CounterValue (counter_value st LLM_COST_DOLLARS_TOTAL [provider; model]
                             + cost)%float]> st).
Proof.
  intros Hcost Hsign. rewrite record_llm_cost_eq, Hcost.
  unfold inc. rewrite Hsign. reflexivity.
Qed.

Lemma record_llm_cost_inv (provider model : string) (p c : Z)
    (st st' : registry) (r : unit) :
  record_llm_cost provider model p c st = Ok (r, st') ->
  r = tt /\ exists v, st' = <[cost_key provider model := CounterValue v]> st.
Proof.
  rewrite record_llm_cost_eq.
  destruct (llm_cost model p c) as [cost|e]; [|discriminate].
  unfold inc. destruct (cost <? 0)%float; [discriminate|].
  intros H. injection H as <- <-. split; [reflexivity|].
  eexists. reflexivity.
Qed.

Lemma counter_value_fresh (m : instrument) (lv : list string) :
  counter_value fresh m lv = 0%float.
Proof. unfold counter_value, fresh. rewrite lookup_empty. reflexivity. Qed.

(** On the fresh registry a successful call leaves [0.0 + cost]. *)
Lemma record_llm_cost_on_fresh (provider model : string) (p c : Z) (cost total : float) :
  llm_cost model p c = Ok cost -> (cost <? 0)%float = false ->
  (0 + cost)%float = total ->
  record_llm_cost provider model p c fresh
  = Ok (tt, <[cost_key provider model := CounterValue total]> fresh).
Proof.
  intros Hcost Hsign <-.
  rewrite (record_llm_cost_on fresh provider model p c cost Hcost Hsign).
  rewrite counter_value_fresh. reflexivity.
Qed.

Lemma inc_ok (m : instrument) (lv : list string) (amount : float) (st : registry) :
  (amount <? 0)%float = false ->
  inc m lv amount st =
  Ok (tt, <[(name m, lv) := CounterValue (counter_value st m lv + amount)%float]> st).
Proof. unfold inc. intros ->. reflexivity. Qed.

Lemma inc_raise (m : instrument) (lv : list string) (amount : float)
    (st : registry) :
  (amount <? 0)%float = true -> inc m lv amount st = Raise ValueError.
Proof. unfold inc. intros ->. reflexivity. Qed.

Lemma counter_value_insert_eq (st : registry) (m : instrument) (lv : list string)
    (v : float) :
  counter_value (<[(name m, lv) := CounterValue v]> st) m lv = v.
Proof. unfold counter_value. rewrite lookup_insert_eq. reflexivity. Qed.

Lemma counter_value_insert_ne (st : registry) (m : instrument) (lv : list string)
    (m' : instrument) (lv' : list string) (s : sample) :
  (name m, lv) ≠ (name m', lv') ->
  counter_value (<[(name m, lv) := s]> st) m' lv' = counter_value st m' lv'.
Proof. intros H. unfold counter_value. rewrite lookup_insert_ne by exact H. reflexivity. Qed.

(** The values of [LLM_PRICING]. *)
Lemma LLM_PRICING_values (model : string) (pr : pricing) :
  LLM_PRICING !! model = Some pr ->
  pr ∈ [ Pricing 0.003 0.015; Pricing 0.015 0.075; Pricing 0.005 0.015;
         Pricing 0.00015 0.0006; Pricing 0.01 0.03 ].
Proof.
  intros H. apply elem_of_list_to_map_2 in H.
  repeat (apply elem_of_cons in H as [H|H];
          [injection H as _ ->; set_solver|]).
  apply elem_of_nil in H. destruct H.
Qed.

Lemma pricing_positive (model : string) :
  let pr := default default_pricing (LLM_PRICING !! model) in
  pos_finite (input pr) = true /\ pos_finite (output pr) = true.
Proof.
  destruct (LLM_PRICING !! model) as [pr|] eqn:E; simpl.
  - apply LLM_PRICING_values in E.
    repeat (apply elem_of_cons in E as [->|E]; [split; vm_compute; reflexivity|]).
    apply elem_of_nil in E. destruct E.
  - split; vm_compute; reflexivity.
Qed.

Lemma small_int_to_float_1000 : Py.small_int_to_float 1000 = 1000%float.
Proof. vm_compute. reflexivity. Qed.

Lemma int_truediv_small (n : Z) :
  Z.abs n < 2 ^ 53 ->
  Py.int_truediv n 1000 = Ok (Py.small_int_to_float n / 1000)%float.
Proof.
  intros H. unfold Py.int_truediv, Py.is_small.
  change (1000 =? 0) with false. cbv iota.
  apply Z.ltb_lt in H. rewrite H.
  change (Z.abs 1000 <? 2 ^ 53) with true. cbn [andb].
  rewrite small_int_to_float_1000. reflexivity.
Qed.

Lemma small_int_to_float_nonneg (n : Z) :
  0 <= n -> nonneg (Py.small_int_to_float n) = true.
Proof.
  intros H. unfold Py.small_int_to_float.
  destruct (Z.ltb_spec n 0); [lia|]. apply of_uint63_nonneg.
Qed.

(** The float made from a non-negative specification float is not below
    zero. *)
Lemma SF2Prim_nonneg (q : spec_float) :
  sf_nonneg q = true -> nonneg (SF2Prim q) = true.
Proof.
  destruct q as [[]|[]| |[] m e]; try discriminate; intros _;
    [vm_compute; reflexivity|vm_compute; reflexivity|vm_compute; reflexivity|].
  unfold SF2Prim, Z.ldexp, nonneg.
  rewrite ldshiftexp_spec.
  pose proof (of_uint63_nonneg (Uint63.of_Z (Z.pos m))) as N.
  unfold nonneg in N.
  destruct (Prim2SF (of_uint63 (Uint63.of_Z (Z.pos m)))) as [[]|[]| |[] mx ex];
    try discriminate N; try reflexivity.
  unfold SFldexp. apply binary_round_nonneg.
Qed.

Lemma int_truediv_nonneg (n : Z) (a : float) :
  0 <= n -> Py.int_truediv n 1000 = Ok a -> nonneg a = true.
Proof.
  intros Hn. unfold Py.int_truediv.
  change (1000 =? 0) with false. cbv iota.
  destruct (Py.is_small n && Py.is_small 1000).
  - intros H. injection H as <-. rewrite small_int_to_float_1000.
    apply div_nonneg; [apply small_int_to_float_nonneg, Hn|].
    vm_compute. reflexivity.
  - assert (sf_nonneg (SFdiv prec emax (Py.int_to_spec n) (Py.int_to_spec 1000)) = true)
      as N.
    { apply SFdiv_nonneg; [|reflexivity]. destruct n; try reflexivity. lia. }
    destruct (SFdiv prec emax (Py.int_to_spec n) (Py.int_to_spec 1000)) as [s|s| |s m e] eqn:E;
      try discriminate; intros H; injection H as <-;
      exact (SF2Prim_nonneg _ N).
Qed.

Lemma llm_cost_nonneg (model : string) (p c : Z) (cost : float) :
  0 <= p -> 0 <= c -> llm_cost model p c = Ok cost -> nonneg cost = true.
Proof.
  intros Hp Hc. unfold llm_cost.
  destruct (pricing_positive model) as [Hi Ho]. cbv zeta in Hi, Ho.
  destruct (Py.int_truediv p 1000) as [a|e] eqn:Ea; [|discriminate].
  destruct (Py.int_truediv c 1000) as [b|e] eqn:Eb; [|discriminate].
  simpl. intros H. injection H as <-.
  apply add_nonneg; apply mul_nonneg; try assumption.
  - exact (int_truediv_nonneg p a Hp Ea).
  - exact (int_truediv_nonneg c b Hc Eb).
Qed.

Lemma llm_cost_small (model : string) (p c : Z) :
  Z.abs p < 2 ^ 53 -> Z.abs c < 2 ^ 53 ->
  llm_cost model p c
  = Ok (cost_expr (default default_pricing (LLM_PRICING !! model)) p c).
Proof.
  intros Hp Hc. unfold llm_cost.
  rewrite (int_truediv_small p Hp), (int_truediv_small c Hc). reflexivity.
Qed.

Lemma llm_cost_raises (model : string) (p c : Z) (e : exn) :
  llm_cost model p c = Raise e -> e = OverflowError.
Proof.
  assert (forall n e', Py.int_truediv n 1000 = Raise e' -> e' = OverflowError) as D.
  { intros n e'. unfold Py.int_truediv. change (1000 =? 0) with false. cbv iota.
    destruct (Py.is_small n && Py.is_small 1000); [discriminate|].
    destruct (SFdiv prec emax (Py.int_to_spec n) (Py.int_to_spec 1000));
      try discriminate. intros H. injection H as <-. reflexivity. }
  unfold llm_cost.
  destruct (Py.int_truediv p 1000) as [a|e1] eqn:Ea.
  - destruct (Py.int_truediv c 1000) as [b|e2] eqn:Eb; [discriminate|].
    simpl. intros H. injection H as <-. exact (D c e2 Eb).
  - simpl. intros H. injection H as <-. exact (D p e1 Ea).
Qed.

Lemma cost_zero (model : string) :
  cost_expr (default default_pricing (LLM_PRICING !! model)) 0 0 = 0%float.
Proof.
  destruct (LLM_PRICING !! model) as [pr|] eqn:E; simpl.
  - apply LLM_PRICING_values in E.
    repeat (apply elem_of_cons in E as [->|E]; [vm_compute; reflexivity|]).
    apply elem_of_nil in E. destruct E.
  - vm_compute. reflexivity.
Qed.

(** * The specification's claims *)

(** C1, as the specification states it, fails at its own example:
    [record_llm_cost("claude", "claude-sonnet-4-20250514", 1000, 500)] on the
    fresh registry leaves the accumulator at [0.010499999999999999], the
    double just below [0.0105]; neither the new value nor the difference
    to the old value compares equal to [0.0105]. *)
Lemma sonnet_cost_is_not_0_0105 :
  exists st',
    record_llm_cost "claude" "claude-sonnet-4-20250514" 1000 500 fresh = Ok (tt, st')
    /\ cost_counter st' "claude" "claude-sonnet-4-20250514" = 0.010499999999999999%float
    /\ (cost_counter st' "claude" "claude-sonnet-4-20250514"
        =? cost_counter fresh "claude" "claude-sonnet-4-20250514" + 0.0105)%float = false
    /\ (cost_counter st' "claude" "claude-sonnet-4-20250514"
        - cost_counter fresh "claude" "claude-sonnet-4-20250514" =? 0.0105)%float = false.
Proof.
  exists (<[cost_key "claude" "claude-sonnet-4-20250514" :=
            CounterValue 0.010499999999999999]> fresh).
  split.
  { apply (record_llm_cost_on_fresh _ _ _ _ 0.010499999999999999);
      vm_compute; reflexivity. }
  unfold cost_key. rewrite counter_value_insert_eq, counter_value_fresh.
  repeat split; vm_compute; reflexivity.
Qed.

(** C1 (amended): for a model of the pricing table, [record_llm_cost]
    computes
    [cost = prompt_tokens/1000 * input_rate + completion_tokens/1000 * output_rate]
    in binary64 arithmetic; for non-negative token counts (whenever the
    two quotients fit a double, as they do below [2^53]) it adds exactly
    that amount to the [(provider, model)] accumulator of
    [careplan_llm_cost_dollars_total]; for
    [("claude", "claude-sonnet-4-20250514", 1000, 500)] the amount added is
    [0.010499999999999999]. *)
Theorem record_llm_cost_priced :
  (forall (provider model : string) (pr : pricing) (p c : Z) (st : registry),
     LLM_PRICING !! model = Some pr ->
     llm_cost model p c
     = (let? a := Py.int_truediv p 1000 in
        let? b := Py.int_truediv c 1000 in
        Ok (a * input pr + b * output pr)%float)
     /\ (Z.abs p < 2 ^ 53 -> Z.abs c < 2 ^ 53 ->
         llm_cost model p c = Ok (cost_expr pr p c))
     /\ (forall cost : float,
           0 <= p -> 0 <= c -> llm_cost model p c = Ok cost ->
           record_llm_cost provider model p c st
           = Ok (tt, <[cost_key provider model :=
                        CounterValue (cost_counter st provider model + cost)]> st)))
  /\ (forall st : registry,
        record_llm_cost "claude" "claude-sonnet-4-20250514" 1000 500 st
        = Ok (tt, <[cost_key "claude" "claude-sonnet-4-20250514" :=
                     CounterValue (cost_counter st "claude" "claude-sonnet-4-20250514"
                                   + 0.010499999999999999)]> st)).
Proof.
  split.
  - intros provider model pr p c st Hpr. split; [|split].
    + unfold llm_cost. rewrite Hpr. reflexivity.
    + intros Hp Hc. rewrite llm_cost_small by assumption. rewrite Hpr. reflexivity.
    + intros cost Hp Hc Hcost.
      apply record_llm_cost_on; [exact Hcost|].
      apply nonneg_not_ltb_zero, (llm_cost_nonneg model p c cost Hp Hc Hcost).
  - intros st. apply record_llm_cost_on; vm_compute; reflexivity.
Qed.

Lemma record_llm_cost_priced_witness :
  LLM_PRICING !! "gpt-4o" = Some (Pricing 0.005 0.015)
  /\ llm_cost "gpt-4o" 2000 1000 = Ok 0.025%float
  /\ record_llm_cost "openai" "gpt-4o" 2000 1000 fresh
     = Ok (tt, <[cost_key "openai" "gpt-4o" :=
                  CounterValue (cost_counter fresh "openai" "gpt-4o" + 0.025)]> fresh).
Proof.
  assert (LLM_PRICING !! "gpt-4o" = Some (Pricing 0.005 0.015)) as Hpr
    by reflexivity.
  assert (llm_cost "gpt-4o" 2000 1000 = Ok 0.025%float) as Hcost
    by (vm_compute; reflexivity).
  split; [exact Hpr|]. split; [exact Hcost|].
  apply (proj2 (proj2 (proj1 record_llm_cost_priced "openai" "gpt-4o"
                         (Pricing 0.005 0.015) 2000 1000 fresh Hpr)));
    [lia|lia|exact Hcost].
Defined.

(** C2: for every model name absent from [LLM_PRICING], [record_llm_cost]
    uses the default rates [0.01] and [0.03]; in particular
    [record_llm_cost("x", "unknown-model", 2000, 1000)] adds exactly [0.05]
    to the [(x, unknown-model)] accumulator. *)
Theorem unknown_model_uses_default_pricing (provider model : string) (p c : Z)
    (st : registry) :
  LLM_PRICING !! model = None ->
  llm_cost model p c
  = (let? a := Py.int_truediv p 1000 in
     let? b := Py.int_truediv c 1000 in
     Ok (a * 0.01 + b * 0.03)%float)
  /\ record_llm_cost provider model p c st
     = (let? a := Py.int_truediv p 1000 in
        let? b := Py.int_truediv c 1000 in
        inc LLM_COST_DOLLARS_TOTAL [provider; model] (a * 0.01 + b * 0.03)%float st)
  /\ llm_cost "unknown-model" 2000 1000 = Ok 0.05%float
  /\ record_llm_cost "x" "unknown-model" 2000 1000 st
     = Ok (tt, <[cost_key "x" "unknown-model" :=
                  CounterValue (cost_counter st "x" "unknown-model" + 0.05)]> st).
Proof.
  intros Habsent.
  assert (llm_cost model p c
          = (let? a := Py.int_truediv p 1000 in
             let? b := Py.int_truediv c 1000 in
             Ok (a * 0.01 + b * 0.03)%float)) as Hcost.
  { unfold llm_cost. rewrite Habsent. reflexivity. }
  split; [exact Hcost|]. split.
  - rewrite record_llm_cost_eq, Hcost.
    destruct (Py.int_truediv p 1000) as [a|e]; [|reflexivity].
    destruct (Py.int_truediv c 1000) as [b|e]; reflexivity.
  - split; [vm_compute; reflexivity|].
    rewrite record_llm_cost_eq.
    replace (llm_cost "unknown-model" 2000 1000) with (Ok 0.05%float)
      by (vm_compute; reflexivity).
    apply inc_ok. vm_compute. reflexivity.
Qed.

Lemma unknown_model_uses_default_pricing_witness :
  LLM_PRICING !! "unknown-model" = None
  /\ llm_cost "unknown-model" 2000 1000 = Ok 0.05%float.
Proof.
  assert (LLM_PRICING !! "unknown-model" = None) as Habsent by reflexivity.
  split; [exact Habsent|].
  exact (proj1 (proj2 (proj2
    (unknown_model_uses_default_pricing "x" "unknown-model" 2000 1000 fresh Habsent)))).
Defined.




(** C4, as the specification states it, counts six histograms: the module
    declares five, and the specification's table lists five. *)
Lemma five_histograms :
  length (filter (fun m => kind_of m = Histogram) instruments) = 5%nat
  /\ length (filter (fun r => r.1.1.2 = Histogram) required_instruments) = 5%nat
  /\ length (filter (fun m => kind_of m = Histogram) instruments) <> 6%nat.
Proof. repeat split; vm_compute; (reflexivity || discriminate). Qed.

(** C4 (amended): the module declares exactly the 19 instruments of the
    specification's table, each with the stated name, kind, ordered label
    names and, for each of the five histograms, exactly the stated bucket
    boundaries, which are strictly ascending; the 19 names are pairwise
    distinct. *)
Theorem instruments_as_required :
  declared <$> instruments = required_instruments
  /\ length instruments = 19%nat
  /\ NoDup (name <$> instruments)
  /\ filter (fun m => kind_of m = Histogram) instruments
     = [ ORDER_CREATE_DURATION_SECONDS; CARE_PLAN_GENERATION_DURATION_SECONDS;
         LLM_REQUEST_DURATION_SECONDS; API_REQUEST_DURATION_SECONDS;
         DB_QUERY_DURATION_SECONDS ]
  /\ buckets ORDER_CREATE_DURATION_SECONDS
     = [0.05; 0.1; 0.25; 0.5; 1.0; 2.5; 5.0; 10.0]%float
  /\ Forall (fun m => ascending (buckets m) = true) instruments.
Proof.
  split; [reflexivity|]. split; [reflexivity|]. split.
  - refine (bool_decide_unpack (NoDup (name <$> instruments)) _).
    vm_compute. reflexivity.
  - split; [|split; [reflexivity|]].
    + vm_compute. reflexivity.
    + apply Forall_forall. intros m Hm.
      repeat (apply elem_of_cons in Hm as [->|Hm]; [vm_compute; reflexivity|]).
      apply elem_of_nil in Hm. destruct Hm.
Qed.

(** C5: [init_app_info] never raises and the last write wins: after
    [init_app_info(v1, e1)] and then [init_app_info(v2, e2)] the
    [careplan_app] info record is exactly [{version: v2, environment: e2}];
    in particular [("1.2.3", "prod")] then [("1.2.4", "staging")] leaves
    [{version: "1.2.4", environment: "staging"}]. *)
Theorem init_app_info_last_write_wins (v1 e1 v2 e2 : string) (st : registry) :
  exists st1 st2,
    init_app_info v1 e1 st = Ok (tt, st1)
    /\ init_app_info v2 e2 st1 = Ok (tt, st2)
    /\ info_value st2 APP_INFO = {[ "version" := v2; "environment" := e2 ]}
    /\ info_value st2 APP_INFO !! "version" = Some v2
    /\ info_value st2 APP_INFO !! "environment" = Some e2
    /\ (forall k, k ≠ "version" -> k ≠ "environment" ->
         info_value st2 APP_INFO !! k = None)
    /\ init_app_info v2 e2 st = Ok (tt, st2)
    /\ (run [init_app_info "1.2.3" "prod"; init_app_info "1.2.4" "staging"] st
        = Ok (<[(name APP_INFO, []) :=
                 InfoValue {[ "version" := "1.2.4"; "environment" := "staging" ]}]> st)).
Proof.
  eexists _, _. split; [reflexivity|]. split; [reflexivity|].
  unfold info_value. rewrite lookup_insert_eq.
  split; [reflexivity|]. split; [reflexivity|]. split.
  { rewrite lookup_insert_ne by discriminate. apply lookup_insert_eq. }
  split.
  { intros k Hv He. rewrite lookup_insert_ne by congruence.
    apply lookup_singleton_ne. congruence. }
  split.
  - unfold init_app_info, info. simpl. rewrite insert_insert_eq. reflexivity.
  - simpl. unfold init_app_info, info. simpl. rewrite insert_insert_eq. reflexivity.
Qed.

(** C8: [record_llm_cost] returns no value, and its only effect is on the
    child [(provider, model)] of [careplan_llm_cost_dollars_total]: every
    other child of that counter and every child of every other instrument
    is unchanged by a call. *)
Theorem record_llm_cost_frame (provider model : string) (p c : Z)
    (st st' : registry) (r : unit) :
  record_llm_cost provider model p c st = Ok (r, st') ->
  r = tt
  /\ (exists v, st' !! cost_key provider model = Some (CounterValue v))
  /\ (forall k, k ≠ cost_key provider model -> st' !! k = st !! k)
  /\ (forall m lv, (name m, lv) ≠ cost_key provider model ->
       counter_value st' m lv = counter_value st m lv
       /\ histogram_value st' m lv = histogram_value st m lv)
  /\ (forall m, info_value st' m = info_value st m).
Proof.
  intros H. apply record_llm_cost_inv in H as (-> & v & ->).
  split; [reflexivity|]. split.
  { eexists. apply lookup_insert_eq. }
  assert (forall k, k ≠ cost_key provider model ->
            (<[cost_key provider model := CounterValue v]> st) !! k = st !! k)
    as Frame.
  { intros k Hk. apply lookup_insert_ne. intros E. apply Hk. symmetry. exact E. }
  split; [exact Frame|]. split.
  - intros m lv Hk. unfold counter_value, histogram_value.
    rewrite (Frame _ Hk). split; reflexivity.
  - intros m. unfold info_value. rewrite Frame; [reflexivity|].
    unfold cost_key. intros E. discriminate E.
Qed.

Lemma record_llm_cost_frame_witness :
  record_llm_cost "openai" "gpt-4o" 1000 500 fresh
  = Ok (tt, <[cost_key "openai" "gpt-4o" := CounterValue 0.0125]> fresh)
  /\ forall k, k ≠ cost_key "openai" "gpt-4o" ->
       (<[cost_key "openai" "gpt-4o" := CounterValue 0.0125]> fresh) !! k = fresh !! k.
Proof.
  assert (record_llm_cost "openai" "gpt-4o" 1000 500 fresh
          = Ok (tt, <[cost_key "openai" "gpt-4o" := CounterValue 0.0125]> fresh)) as H.
  { apply (record_llm_cost_on_fresh _ _ _ _ 0.0125); vm_compute; reflexivity. }
  split; [exact H|].
  exact (proj1 (proj2 (proj2
    (record_llm_cost_frame "openai" "gpt-4o" 1000 500 fresh _ tt H)))).
Defined.

(** C9: for every provider and all token counts, [record_llm_cost] with
    model ["gpt-4-turbo"] adds the same amount to its accumulator as with
    any model absent from [LLM_PRICING], since the table entry of
    gpt-4-turbo equals the default rates. *)
Theorem gpt_4_turbo_costs_as_unknown_model (provider model : string) (p c : Z)
    (st : registry) :
  LLM_PRICING !! model = None ->
  LLM_PRICING !! "gpt-4-turbo" = Some default_pricing
  /\ llm_cost "gpt-4-turbo" p c = llm_cost model p c
  /\ record_llm_cost provider "gpt-4-turbo" p c st
     = match llm_cost model p c with
       | Ok cost => inc LLM_COST_DOLLARS_TOTAL [provider; "gpt-4-turbo"] cost st
       | Raise e => Raise e
       end
  /\ record_llm_cost provider model p c st
     = match llm_cost model p c with
       | Ok cost => inc LLM_COST_DOLLARS_TOTAL [provider; model] cost st
       | Raise e => Raise e
       end.
Proof.
  intros Habsent.
  assert (llm_cost "gpt-4-turbo" p c = llm_cost model p c) as E.
  { unfold llm_cost. rewrite Habsent. reflexivity. }
  split; [reflexivity|]. split; [exact E|]. split.
  - rewrite record_llm_cost_eq, E. reflexivity.
  - apply record_llm_cost_eq.
Qed.

Lemma gpt_4_turbo_costs_as_unknown_model_witness :
  LLM_PRICING !! "unknown-model" = None
  /\ llm_cost "gpt-4-turbo" 1500 700 = llm_cost "unknown-model" 1500 700.
Proof.
  assert (LLM_PRICING !! "unknown-model" = None) as Habsent by reflexivity.
  split; [exact Habsent|].
  exact (proj1 (proj2
    (gpt_4_turbo_costs_as_unknown_model "openai" "unknown-model" 1500 700 fresh Habsent))).
Defined.

(** C10: for every provider and model, [record_llm_cost(provider, model, 0, 0)]
    computes the cost [0.0], succeeds, and leaves the [(provider, model)]
    accumulator, like every other child, numerically unchanged. *)
Theorem record_llm_cost_zero_tokens (provider model : string) (st : registry) :
  llm_cost model 0 0 = Ok 0%float
  /\ exists st',
       record_llm_cost provider model 0 0 st = Ok (tt, st')
       /\ cost_counter st' provider model = (cost_counter st provider model + 0)%float
       /\ same_number (cost_counter st' provider model)
                      (cost_counter st provider model) = true
       /\ (forall k, k ≠ cost_key provider model -> st' !! k = st !! k).
Proof.
  assert (llm_cost model 0 0 = Ok 0%float) as Hcost.
  { rewrite llm_cost_small by (simpl; lia). rewrite cost_zero. reflexivity. }
  split; [exact Hcost|].
  eexists. split.
  { rewrite record_llm_cost_eq, Hcost. apply inc_ok. reflexivity. }
  split; [apply counter_value_insert_eq|]. split.
  - rewrite counter_value_insert_eq. apply add_zero_same.
  - intros k Hk. apply lookup_insert_ne. intros E. apply Hk. symmetry. exact E.
Qed.

(** * Counters and histograms, call after call *)

Lemma ltb_irrefl (x : float) : (x <? x)%float = false.
Proof. rewrite FloatAxioms.ltb_spec. apply SFltb_refl. Qed.

Lemma run_inc_cons (m : instrument) (lv : list string) (a : float)
    (amounts : list float) (st : registry) :
  (a <? 0)%float = false ->
  run (inc m lv <$> (a :: amounts)) st
  = run (inc m lv <$> amounts)
      (<[(name m, lv) := CounterValue (counter_value st m lv + a)%float]> st).
Proof. intros H. simpl. rewrite inc_ok by exact H. reflexivity. Qed.

(** [n] increments of one child add up, left to right, and touch nothing
    else. *)
Lemma run_inc_sum (m : instrument) (lv : list string) (amounts : list float) :
  forall st : registry,
    Forall (fun a => (a <? 0)%float = false) amounts ->
    exists st',
      run (inc m lv <$> amounts) st = Ok st'
      /\ counter_value st' m lv = fsum (counter_value st m lv) amounts
      /\ (forall k, k ≠ (name m, lv) -> st' !! k = st !! k).
Proof.
  induction amounts as [|a amounts IH]; intros st Hall.
  - exists st. repeat split.
  - inversion Hall as [|? ? Ha Hrest]; subst.
    destruct (IH (<[(name m, lv) := CounterValue (counter_value st m lv + a)%float]> st)
                Hrest) as (st' & Hrun & Hval & Hframe).
    exists st'. split; [|split].
    + rewrite run_inc_cons by exact Ha. exact Hrun.
    + rewrite Hval, counter_value_insert_eq. reflexivity.
    + intros k Hk. rewrite (Hframe k Hk). apply lookup_insert_ne. congruence.
Qed.

(** A successful [inc] lowers no counter child. *)
Lemma inc_monotone (m : instrument) (lv : list string) (a : float)
    (st st' : registry) (m' : instrument) (lv' : list string) :
  inc m lv a st = Ok (tt, st') ->
  (counter_value st' m' lv' <? counter_value st m' lv')%float = false.
Proof.
  unfold inc. destruct (a <? 0)%float eqn:Ha; [discriminate|].
  intros H. injection H as <-.
  destruct (decide ((name m, lv) = (name m', lv'))) as [E|N].
  - unfold counter_value at 1. rewrite E, lookup_insert_eq.
    unfold counter_value at 1. rewrite E. apply add_not_ltb, Ha.
  - rewrite counter_value_insert_ne by exact N. apply ltb_irrefl.
Qed.

Lemma run_record_llm_cost (provider model : string) (calls : list (Z * Z))
    (costs : list float) :
  Forall2 (fun pc cost => llm_cost model pc.1 pc.2 = Ok cost
                          /\ (cost <? 0)%float = false) calls costs ->
  forall st : registry,
    run ((fun pc => record_llm_cost provider model pc.1 pc.2) <$> calls) st
    = run (inc LLM_COST_DOLLARS_TOTAL [provider; model] <$> costs) st.
Proof.
  induction 1 as [|[p c] cost calls costs [Hcost Hsign] _ IH]; intros st.
  - reflexivity.
  - simpl in *. rewrite record_llm_cost_eq, Hcost.
    rewrite inc_ok by exact Hsign. apply IH.
Qed.

Lemma kwarg_is_Some (l : string) (kw : list (string * string)) :
  l ∈ kw.*1 -> is_Some (kwarg l kw).
Proof.
  induction kw as [|[k v] kw IH]; intros H.
  - apply elem_of_nil in H. destruct H.
  - cbn [kwarg]. destruct (bool_decide (k = l)) eqn:E; [eexists; reflexivity|].
    apply bool_decide_eq_false in E.
    rewrite fmap_cons in H. apply elem_of_cons in H as [H|H]; [|exact (IH H)].
    simpl in H. congruence.
Qed.

(** A label assignment with exactly the declared names gives one value per
    declared label name. *)
Lemma label_values_length (m : instrument) (kw : list (string * string)) :
  same_names (kw.*1) (labelnames m) = true ->
  length (label_values m kw) = length (labelnames m).
Proof.
  unfold same_names, label_values. intros H.
  apply andb_true_iff in H as [H _]. apply andb_true_iff in H as [_ H].
  induction (labelnames m) as [|l ls IH]; [reflexivity|].
  cbn [forallb] in H. apply andb_true_iff in H as [Hl Hls].
  apply bool_decide_eq_true in Hl.
  destruct (kwarg_is_Some l kw Hl) as [v Hv].
  cbn [omap list_omap]. rewrite Hv. cbn [length]. f_equal. exact (IH Hls).
Qed.

Lemma increment_valid (m : instrument) (kw : list (string * string)) (a : float)
    (st : registry) :
  kind_of m = Counter -> same_names (kw.*1) (labelnames m) = true ->
  increment m kw a st = inc m (label_values m kw) a st.
Proof. unfold increment. intros -> ->. reflexivity. Qed.

Lemma run_increment_valid (m : instrument) (kw : list (string * string))
    (amounts : list float) (st : registry) :
  kind_of m = Counter -> same_names (kw.*1) (labelnames m) = true ->
  run (increment m kw <$> amounts) st
  = run (inc m (label_values m kw) <$> amounts) st.
Proof.
  intros Hk Hl. revert st.
  induction amounts as [|a amounts IH]; intros st; [reflexivity|].
  rewrite !fmap_cons. cbn [run]. rewrite (increment_valid m kw a st Hk Hl).
  destruct (inc m (label_values m kw) a st) as [[[] st1]|e]; [apply IH|reflexivity].
Qed.

Lemma increment_ok_inv (m : instrument) (kw : list (string * string)) (a : float)
    (st st' : registry) :
  increment m kw a st = Ok (tt, st') ->
  kind_of m = Counter /\ same_names (kw.*1) (labelnames m) = true
  /\ inc m (label_values m kw) a st = Ok (tt, st').
Proof.
  unfold increment. destruct (kind_of m); try discriminate.
  destruct (same_names (kw.*1) (labelnames m)); [|discriminate].
  intros H. repeat split. exact H.
Qed.

(** C7: for every counter and every label vector (an assignment of values
    to exactly the declared label names), [n] increments with amounts
    [a1..an] (each accepted, that is not negative) leave the accumulator of
    that label vector at its old value plus [a1 + ... + an], summed left
    to right, which is [a1 + ... + an] for a child not touched before; a
    label set that does not match the declared names and a negative amount
    are refused; no increment lowers any counter child.  In particular
    [record_llm_cost] is one increment of [careplan_llm_cost_dollars_total]
    under [(provider, model)], and successive [record_llm_cost] calls add
    their costs to it and never lower or reset it. *)
Theorem counters_accumulate :
  (forall (m : instrument) (kw : list (string * string)) (amounts : list float)
          (st : registry),
     kind_of m = Counter ->
     same_names (kw.*1) (labelnames m) = true ->
     Forall (fun a => (a <? 0)%float = false) amounts ->
     length (label_values m kw) = length (labelnames m)
     /\ exists st',
          run (increment m kw <$> amounts) st = Ok st'
          /\ counter_value st' m (label_values m kw)
             = fsum (counter_value st m (label_values m kw)) amounts
          /\ (st !! (name m, label_values m kw) = None ->
              counter_value st' m (label_values m kw) = fsum 0 amounts)
          /\ (forall k, k ≠ (name m, label_values m kw) -> st' !! k = st !! k))
  /\ (forall (m : instrument) (kw : list (string * string)) (a : float)
             (st : registry),
        kind_of m = Counter ->
        same_names (kw.*1) (labelnames m) = false ->
        increment m kw a st = Raise ValueError)
  /\ (forall (m : instrument) (kw : list (string * string)) (a : float)
             (st : registry),
        kind_of m = Counter ->
        (a <? 0)%float = true -> increment m kw a st = Raise ValueError)
  /\ (forall (m : instrument) (kw : list (string * string)) (a : float)
             (st : registry),
        kind_of m ≠ Counter -> increment m kw a st = Raise AttributeError)
  /\ (forall (m : instrument) (kw : list (string * string)) (a : float)
             (st st' : registry) (m' : instrument) (lv' : list string),
        increment m kw a st = Ok (tt, st') ->
        (counter_value st' m' lv' <? counter_value st m' lv')%float = false)
  /\ (forall (provider model : string) (p c : Z) (st : registry),
        record_llm_cost provider model p c st
        = match llm_cost model p c with
          | Ok cost =>
            increment LLM_COST_DOLLARS_TOTAL
              [("provider", provider); ("model", model)] cost st
          | Raise e => Raise e
          end)
  /\ (forall (provider model : string) (p c : Z) (st st' : registry),
        record_llm_cost provider model p c st = Ok (tt, st') ->
        (exists cost,
           llm_cost model p c = Ok cost
           /\ cost_counter st' provider model
              = (cost_counter st provider model + cost)%float)
        /\ forall (m' : instrument) (lv' : list string),
             (counter_value st' m' lv' <? counter_value st m' lv')%float = false)
  /\ (forall (provider model : string) (calls : list (Z * Z)) (costs : list float)
             (st : registry),
        Forall2 (fun pc cost => llm_cost model pc.1 pc.2 = Ok cost
                                /\ (cost <? 0)%float = false) calls costs ->
        exists st',
          run ((fun pc => record_llm_cost provider model pc.1 pc.2) <$> calls) st
          = Ok st'
          /\ cost_counter st' provider model
             = fsum (cost_counter st provider model) costs).
Proof.
  split; [|split; [|split; [|split; [|split; [|split; [|split]]]]]].
  - intros m kw amounts st Hk Hl Hall.
    split; [exact (label_values_length m kw Hl)|].
    rewrite (run_increment_valid m kw amounts st Hk Hl).
    destruct (run_inc_sum m (label_values m kw) amounts st Hall)
      as (st' & Hrun & Hval & Hframe).
    exists st'. split; [exact Hrun|]. split; [exact Hval|]. split; [|exact Hframe].
    intros Habsent. rewrite Hval. unfold counter_value at 1.
    rewrite Habsent. reflexivity.
  - intros m kw a st Hk Hl. unfold increment. rewrite Hk, Hl. reflexivity.
  - intros m kw a st Hk Ha. unfold increment. rewrite Hk.
    destruct (same_names (kw.*1) (labelnames m)); [|reflexivity].
    apply inc_raise, Ha.
  - intros m kw a st Hk. unfold increment.
    destruct (kind_of m); try reflexivity. congruence.
  - intros m kw a st st' m' lv' H.
    apply increment_ok_inv in H as (_ & _ & H).
    exact (inc_monotone _ _ _ _ _ m' lv' H).
  - intros provider model p c st. rewrite record_llm_cost_eq.
    destruct (llm_cost model p c) as [cost|e]; reflexivity.
  - intros provider model p c st st' H.
    rewrite record_llm_cost_eq in H.
    destruct (llm_cost model p c) as [cost|e] eqn:Hcost; [|discriminate].
    split.
    + exists cost. split; [reflexivity|].
      unfold inc in H. destruct (cost <? 0)%float; [discriminate|].
      injection H as <-. apply counter_value_insert_eq.
    + intros m' lv'. exact (inc_monotone _ _ _ _ _ m' lv' H).
  - intros provider model calls costs st H.
    rewrite (run_record_llm_cost provider model calls costs H).
    assert (Forall (fun a => (a <? 0)%float = false) costs) as Hall.
    { clear st. induction H as [|? ? ? ? [_ ?]]; constructor; assumption. }
    destruct (run_inc_sum LLM_COST_DOLLARS_TOTAL [provider; model] costs st Hall)
      as (st' & Hrun & Hval & _).
    exists st'. split; assumption.
Qed.

Lemma counters_accumulate_witness :
  kind_of ORDER_CREATED_TOTAL = Counter
  /\ same_names ([("status", "success")].*1) (labelnames ORDER_CREATED_TOTAL) = true
  /\ Forall (fun a => (a <? 0)%float = false) [1.5; 2.25]%float
  /\ exists st',
       run (increment ORDER_CREATED_TOTAL [("status", "success")]
              <$> [1.5; 2.25]%float) fresh = Ok st'
       /\ counter_value st' ORDER_CREATED_TOTAL ["success"] = 3.75%float.
Proof.
  assert (kind_of ORDER_CREATED_TOTAL = Counter) as Hk by reflexivity.
  assert (same_names ([("status", "success")].*1) (labelnames ORDER_CREATED_TOTAL)
          = true) as Hl by reflexivity.
  assert (Forall (fun a => (a <? 0)%float = false) [1.5; 2.25]%float) as Hall.
  { repeat constructor. }
  split; [exact Hk|]. split; [exact Hl|]. split; [exact Hall|].
  destruct (proj1 counters_accumulate ORDER_CREATED_TOTAL [("status", "success")]
              [1.5; 2.25]%float fresh Hk Hl Hall)
    as (_ & st' & Hrun & _ & Hval & _).
  exists st'. split; [exact Hrun|].
  change ["success"] with (label_values ORDER_CREATED_TOTAL [("status", "success")]).
  rewrite Hval; [|apply lookup_empty]. reflexivity.
Defined.

(** *** Histograms *)


















(** * Further properties of the helpers *)

(** *** Floats with a clear sign bit *)

Lemma sf_plus_nonneg (x : spec_float) : sf_plus x = true -> sf_nonneg x = true.
Proof. destruct x as [[]|[]| |[] m e]; simpl; congruence. Qed.

Lemma binary_round_aux_plus (m e : Z) (l : location) :
  0 <= m -> sf_plus (binary_round_aux prec emax false m e l) = true.
Proof.
  intros H. pose proof (binary_round_aux_sign false m e l H) as S.
  destruct (binary_round_aux prec emax false m e l); simpl; subst; tauto.
Qed.

Lemma SFdiv_plus (x y : spec_float) :
  sf_plus x = true -> sf_pos_finite y = true ->
  sf_plus (SFdiv prec emax x y) = true.
Proof.
  destruct x as [[]|[]| |[] mx ex], y as [[]|[]| |[] my ey];
    try discriminate; try reflexivity; intros _ _.
  unfold SFdiv.
  pose proof (SFdiv_core_binary_nonneg (Z.pos mx) ex (Z.pos my) ey
                ltac:(lia) ltac:(lia)) as H.
  destruct (SFdiv_core_binary prec emax _ ex _ ey) as [[mz ez] lz]; simpl in H.
  apply binary_round_aux_plus, H.
Qed.

Lemma SFmul_plus (x y : spec_float) :
  sf_plus x = true -> sf_pos_finite y = true ->
  sf_plus (SFmul prec emax x y) = true.
Proof.
  destruct x as [[]|[]| |[] mx ex], y as [[]|[]| |[] my ey];
    try discriminate; try reflexivity; intros _ _.
  unfold SFmul. apply binary_round_aux_plus. lia.
Qed.

Lemma binary_round_plus (m : positive) (e : Z) :
  sf_plus (binary_round prec emax false m e) = true.
Proof.
  unfold binary_round. destruct (shl_align m e _) as [mz ez].
  apply binary_round_aux_plus. lia.
Qed.

Lemma of_uint63_plus (n : PrimInt63.int) : plus (of_uint63 n) = true.
Proof.
  unfold plus. rewrite of_uint63_spec.
  pose proof (Uint63.to_Z_bounded n) as B.
  destruct (Uint63.to_Z n) as [|q|q]; [reflexivity| |lia].
  apply binary_round_plus.
Qed.

Lemma SF2Prim_plus (q : spec_float) : sf_plus q = true -> plus (SF2Prim q) = true.
Proof.
  destruct q as [[]|[]| |[] m e]; try discriminate; intros _;
    [vm_compute; reflexivity|vm_compute; reflexivity|].
  unfold SF2Prim, Z.ldexp, plus.
  rewrite ldshiftexp_spec.
  pose proof (of_uint63_plus (Uint63.of_Z (Z.pos m))) as N.
  unfold plus in N.
  destruct (Prim2SF (of_uint63 (Uint63.of_Z (Z.pos m)))) as [[]|[]| |[] mx ex];
    try discriminate N; try reflexivity.
  unfold SFldexp. apply binary_round_plus.
Qed.

Lemma int_truediv_plus (n : Z) (a : float) :
  0 <= n -> Py.int_truediv n 1000 = Ok a -> plus a = true.
Proof.
  intros Hn. unfold Py.int_truediv.
  change (1000 =? 0) with false. cbv iota.
  destruct (Py.is_small n && Py.is_small 1000).
  - intros H. injection H as <-. rewrite small_int_to_float_1000.
    unfold plus. rewrite div_spec. apply SFdiv_plus; [|vm_compute; reflexivity].
    unfold Py.small_int_to_float. destruct (Z.ltb_spec n 0); [lia|].
    apply of_uint63_plus.
  - assert (sf_plus (SFdiv prec emax (Py.int_to_spec n) (Py.int_to_spec 1000)) = true)
      as N.
    { apply SFdiv_plus; [|reflexivity]. destruct n; try reflexivity. lia. }
    destruct (SFdiv prec emax (Py.int_to_spec n) (Py.int_to_spec 1000))
      as [s|s| |s m e] eqn:E;
      try discriminate; intros H; injection H as <-;
      exact (SF2Prim_plus _ N).
Qed.

Lemma mul_plus (x y : float) :
  plus x = true -> pos_finite y = true -> plus (x * y) = true.
Proof. unfold plus, pos_finite. rewrite mul_spec. apply SFmul_plus. Qed.

(** Adding [+0.0] to such a float gives the float itself, on either side. *)
Lemma add_zero_r (x : float) : plus x = true -> (x + 0)%float = x.
Proof.
  unfold plus. intros H. apply Prim2SF_inj. rewrite add_spec.
  change (Prim2SF 0) with (S754_zero false).
  destruct (Prim2SF x) as [[]|[]| |[] m e]; try discriminate H; reflexivity.
Qed.

Lemma add_zero_l (x : float) : plus x = true -> (0 + x)%float = x.
Proof.
  unfold plus. intros H. apply Prim2SF_inj. rewrite add_spec.
  change (Prim2SF 0) with (S754_zero false).
  destruct (Prim2SF x) as [[]|[]| |[] m e]; try discriminate H; reflexivity.
Qed.

Lemma zero_mul (r : float) : pos_finite r = true -> (0 * r)%float = 0%float.
Proof.
  unfold pos_finite. intros H. apply Prim2SF_inj. rewrite mul_spec.
  change (Prim2SF 0) with (S754_zero false).
  destruct (Prim2SF r) as [[]|[]| |[] m e]; try discriminate H; reflexivity.
Qed.

(** Float addition is commutative. *)
Lemma SFadd_comm (x y : spec_float) : SFadd prec emax x y = SFadd prec emax y x.
Proof.
  destruct x as [[]|[]| |sx mx ex], y as [[]|[]| |sy my ey]; try reflexivity.
  unfold SFadd. rewrite (Z.min_comm ey ex). f_equal. apply Z.add_comm.
Qed.

Lemma add_comm (x y : float) : (x + y)%float = (y + x)%float.
Proof. apply Prim2SF_inj. rewrite !add_spec. apply SFadd_comm. Qed.

(** *** From "not below" to "at most" *)

Lemma nonneg_not_nan (x : float) : nonneg x = true -> Prim2SF x <> S754_nan.
Proof. unfold nonneg. intros H E. rewrite E in H. discriminate. Qed.

Lemma SFcompare_antisym (x y : spec_float) :
  SFcompare x y = option_map CompOpp (SFcompare y x).
Proof.
  destruct x as [[]|[]| |[] m1 e1], y as [[]|[]| |[] m2 e2];
    try reflexivity; simpl;
    rewrite (Z.compare_antisym e1 e2);
    change (Pos.compare_cont Eq) with Pos.compare;
    rewrite (Pos.compare_antisym m1 m2);
    destruct (e1 ?= e2)%Z; simpl; try reflexivity;
    destruct (m1 ?= m2)%positive; reflexivity.
Qed.

Lemma not_ltb_leb (x y : float) :
  Prim2SF x <> S754_nan -> Prim2SF y <> S754_nan ->
  (y <? x)%float = false -> (x <=? y)%float = true.
Proof.
  rewrite FloatAxioms.ltb_spec, FloatAxioms.leb_spec. unfold SFltb, SFleb.
  intros Hx Hy. rewrite (SFcompare_antisym (Prim2SF x) (Prim2SF y)).
  destruct (SFcompare (Prim2SF y) (Prim2SF x)) as [[]|] eqn:E; simpl;
    try congruence.
  exfalso.
  destruct (Prim2SF x) as [[]|[]| |[] m1 e1], (Prim2SF y) as [[]|[]| |[] m2 e2];
    simpl in E; congruence.
Qed.

Lemma leb_refl (x : float) : Prim2SF x <> S754_nan -> (x <=? x)%float = true.
Proof.
  intros H. rewrite FloatAxioms.leb_spec. unfold SFleb.
  rewrite SFcompare_refl by exact H. reflexivity.
Qed.

(** *** One helper call at a time *)

Lemma init_app_info_eq (version environment : string) (st : registry) :
  init_app_info version environment st
  = Ok (tt, <[(name APP_INFO, []) :=
               InfoValue {[ "version" := version; "environment" := environment ]}]> st).
Proof. reflexivity. Qed.

Lemma cost_key_not_app_info (provider model : string) :
  cost_key provider model ≠ (name APP_INFO, []).
Proof. unfold cost_key. intros E. discriminate E. Qed.

Lemma cost_key_inj (p1 m1 p2 m2 : string) :
  cost_key p1 m1 = cost_key p2 m2 -> p1 = p2 /\ m1 = m2.
Proof. unfold cost_key. intros E. injection E as -> ->. split; reflexivity. Qed.

Lemma info_value_insert_ne (st : registry) (k : string * list string) (s : sample)
    (m : instrument) :
  k ≠ (name m, []) -> info_value (<[k := s]> st) m = info_value st m.
Proof. intros H. unfold info_value. rewrite lookup_insert_ne by exact H. reflexivity. Qed.

Lemma info_value_insert_eq (st : registry) (m : instrument) (d : gmap string string) :
  info_value (<[(name m, []) := InfoValue d]> st) m = d.
Proof. unfold info_value. rewrite lookup_insert_eq. reflexivity. Qed.

(** What one successful helper call does to the registry. *)
Lemma call_step (h : helper_call) (st st' : registry) :
  call h st = Ok (tt, st') ->
  match h with
  | RecordLLMCost provider model p c =>
    exists cost,
      llm_cost model p c = Ok cost /\ (cost <? 0)%float = false
      /\ st' = <[cost_key provider model :=
                  CounterValue (cost_counter st provider model + cost)]> st
  | InitAppInfo version environment =>
    st' = <[(name APP_INFO, []) :=
             InfoValue {[ "version" := version; "environment" := environment ]}]> st
  end.
Proof.
  destruct h as [provider model p c|version environment]; simpl.
  - rewrite record_llm_cost_eq.
    destruct (llm_cost model p c) as [cost|e]; [|discriminate].
    unfold inc. destruct (cost <? 0)%float eqn:Hs; [discriminate|].
    intros H. exists cost. split; [reflexivity|]. split; [exact Hs|].
    injection H as <-. reflexivity.
  - rewrite init_app_info_eq. intros H. injection H as <-. reflexivity.
Qed.

Lemma run_cons_inv {A} (m : M A) (ms : list (M A)) (st st' : registry) :
  run (m :: ms) st = Ok st' ->
  exists a st1, m st = Ok (a, st1) /\ run ms st1 = Ok st'.
Proof.
  simpl. destruct (m st) as [[a st1]|e]; [|discriminate].
  intros H. exists a, st1. split; [reflexivity|exact H].
Qed.

Lemma counter_value_nonneg (st : registry) (m : instrument) (lv : list string) :
  counters_nonneg st -> nonneg (counter_value st m lv) = true.
Proof.
  intros H. unfold counter_value.
  assert (nonneg 0 = true) as Z0 by (vm_compute; reflexivity).
  destruct (st !! (name m, lv)) as [[v|v|h|d]|] eqn:E; try exact Z0.
  exact (H _ _ E).
Qed.

Lemma declared_counter_not_app_info (m : instrument) :
  m ∈ instruments -> kind_of m = Counter -> name m ≠ name APP_INFO.
Proof.
  intros Hm Hk.
  repeat (apply elem_of_cons in Hm as [->|Hm]; [try discriminate Hk; discriminate|]).
  apply elem_of_nil in Hm. destruct Hm.
Qed.

(** A successful call with non-negative token counts keeps every counter
    child non-negative and lowers no declared counter. *)
Lemma call_keeps_counters (h : helper_call) (st st' : registry) :
  counters_nonneg st -> nonneg_tokens h = true ->
  call h st = Ok (tt, st') ->
  counters_nonneg st'
  /\ forall (m : instrument) (lv : list string),
       name m ≠ name APP_INFO ->
       (counter_value st m lv <=? counter_value st' m lv)%float = true.
Proof.
  intros Hinv Htok Hcall. apply call_step in Hcall.
  destruct h as [provider model p c|version environment].
  - destruct Hcall as (cost & Hcost & Hsign & ->).
    simpl in Htok. apply andb_true_iff in Htok as [Hp Hc].
    apply Z.leb_le in Hp, Hc.
    pose proof (llm_cost_nonneg model p c cost Hp Hc Hcost) as Ncost.
    pose proof (counter_value_nonneg st LLM_COST_DOLLARS_TOTAL [provider; model] Hinv)
      as Nold.
    pose proof (add_nonneg _ _ Nold Ncost) as Nnew.
    split.
    + intros k v Hk.
      destruct (decide (cost_key provider model = k)) as [<-|Hne].
      * rewrite lookup_insert_eq in Hk. injection Hk as <-. exact Nnew.
      * rewrite lookup_insert_ne in Hk by exact Hne. exact (Hinv _ _ Hk).
    + intros m lv _.
      destruct (decide (cost_key provider model = (name m, lv))) as [E|Hne].
      * unfold counter_value at 2. rewrite <- E, lookup_insert_eq.
        assert (counter_value st m lv = cost_counter st provider model) as ->.
        { unfold counter_value. rewrite <- E. reflexivity. }
        apply not_ltb_leb; try (apply nonneg_not_nan; assumption).
        apply add_not_ltb, Hsign.
      * unfold cost_key in *. rewrite counter_value_insert_ne by exact Hne.
        apply leb_refl, nonneg_not_nan, counter_value_nonneg, Hinv.
  - subst st'. split.
    + intros k v Hk.
      destruct (decide ((name APP_INFO, []) = k)) as [<-|Hne].
      * rewrite lookup_insert_eq in Hk. discriminate Hk.
      * rewrite lookup_insert_ne in Hk by exact Hne. exact (Hinv _ _ Hk).
    + intros m lv Hm.
      rewrite counter_value_insert_ne by congruence.
      apply leb_refl, nonneg_not_nan, counter_value_nonneg, Hinv.
Qed.

Lemma call_raises_overflow (h : helper_call) (st : registry) (e : exn) :
  nonneg_tokens h = true -> call h st = Raise e -> e = OverflowError.
Proof.
  destruct h as [provider model p c|version environment]; simpl.
  - intros Htok. apply andb_true_iff in Htok as [Hp Hc].
    apply Z.leb_le in Hp, Hc.
    rewrite record_llm_cost_eq.
    destruct (llm_cost model p c) as [cost|e'] eqn:Hcost.
    + rewrite inc_ok; [discriminate|].
      apply nonneg_not_ltb_zero, (llm_cost_nonneg model p c cost Hp Hc Hcost).
    + intros H. injection H as <-. exact (llm_cost_raises model p c e' Hcost).
  - rewrite init_app_info_eq. discriminate.
Qed.

Lemma call_small_ok (h : helper_call) (st : registry) :
  small_tokens h = true -> exists st', call h st = Ok (tt, st').
Proof.
  destruct h as [provider model p c|version environment]; simpl.
  - intros Htok.
    repeat (apply andb_true_iff in Htok as [Htok ?]).
    assert (0 <= p < 2 ^ 53 /\ 0 <= c < 2 ^ 53) as [Hp Hc] by lia.
    pose proof (llm_cost_small model p c ltac:(lia) ltac:(lia)) as Hcost.
    eexists. apply (record_llm_cost_on st provider model p c _ Hcost).
    apply nonneg_not_ltb_zero.
    apply (llm_cost_nonneg model p c _ ltac:(lia) ltac:(lia) Hcost).
  - intros _. eexists. apply init_app_info_eq.
Qed.

Lemma small_tokens_nonneg (h : helper_call) :
  small_tokens h = true -> nonneg_tokens h = true.
Proof.
  destruct h as [provider model p c|version environment]; simpl; [|reflexivity].
  intros H. repeat (apply andb_true_iff in H as [H ?]).
  apply andb_true_iff. split; assumption.
Qed.

(** *** Properties of the helpers beyond the specification's claims *)

(** X1: [init_app_info] always succeeds and writes only the [careplan_app]
    record: every other child of the registry, in particular every counter
    and histogram child of the other declared instruments and every
    accumulator of the cost counter, is unchanged. *)
Theorem init_app_info_frame (version environment : string) (st : registry) :
  exists st',
    init_app_info version environment st = Ok (tt, st')
    /\ (forall k, k ≠ (name APP_INFO, []) -> st' !! k = st !! k)
    /\ (forall (m : instrument) (lv : list string),
          m ∈ instruments -> m ≠ APP_INFO ->
          counter_value st' m lv = counter_value st m lv
          /\ histogram_value st' m lv = histogram_value st m lv)
    /\ (forall provider model : string,
          cost_counter st' provider model = cost_counter st provider model).
Proof.
  eexists. split; [apply init_app_info_eq|].
  assert (forall k, k ≠ (name APP_INFO, []) ->
            (<[(name APP_INFO, []) :=
               InfoValue {[ "version" := version; "environment" := environment ]}]> st)
              !! k = st !! k) as Frame.
  { intros k Hk. apply lookup_insert_ne. congruence. }
  split; [exact Frame|]. split.
  - intros m lv Hm Hne.
    assert (name m ≠ name APP_INFO) as Hname.
    { repeat (apply elem_of_cons in Hm as [->|Hm];
              [first [congruence | discriminate]|]).
      apply elem_of_nil in Hm. destruct Hm. }
    unfold counter_value, histogram_value.
    rewrite Frame by congruence. split; reflexivity.
  - intros provider model. unfold counter_value.
    rewrite Frame; [reflexivity|]. apply cost_key_not_app_info.
Qed.

(** X2: after any sequence of [record_llm_cost] and [init_app_info] calls
    that runs without exception, the accumulator of every
    [(provider, model)] is its old value plus the costs of the calls made
    for that pair, summed in call order (calls for other pairs and
    [init_app_info] calls do not disturb it); the [careplan_app] record is
    that of the last [init_app_info] call; no other child is touched. *)
Theorem helper_runs_accumulate (hs : list helper_call) :
  forall st st' : registry,
    run (call <$> hs) st = Ok st' ->
    (forall provider model : string,
       cost_counter st' provider model
       = fsum (cost_counter st provider model) (costs_of provider model hs))
    /\ info_value st' APP_INFO = last_info (info_value st APP_INFO) hs
    /\ (forall k, (forall provider model, k ≠ cost_key provider model) ->
                  k ≠ (name APP_INFO, []) -> st' !! k = st !! k).
Proof.
  induction hs as [|h hs IH]; intros st st' Hrun.
  - simpl in Hrun. injection Hrun as <-. repeat split.
  - rewrite fmap_cons in Hrun.
    apply run_cons_inv in Hrun as ([] & st1 & Hcall & Hrest).
    destruct (IH st1 st' Hrest) as (Hsum & Hinfo & Hframe).
    apply call_step in Hcall.
    destruct h as [provider' model' p c|version environment].
    + destruct Hcall as (cost & Hcost & Hsign & ->).
      split; [|split].
      * intros provider model. rewrite Hsum. cbn [costs_of].
        destruct (bool_decide (provider' = provider /\ model' = model)) eqn:B.
        -- apply bool_decide_eq_true in B as [-> ->]. rewrite Hcost.
           unfold cost_key. rewrite counter_value_insert_eq. reflexivity.
        -- apply bool_decide_eq_false in B.
           unfold cost_key. rewrite counter_value_insert_ne; [reflexivity|].
           intros E. apply B. injection E as -> ->. split; reflexivity.
      * rewrite Hinfo, info_value_insert_ne by apply cost_key_not_app_info.
        reflexivity.
      * intros k Hk1 Hk2. rewrite (Hframe k Hk1 Hk2).
        apply lookup_insert_ne. intros E. exact (Hk1 provider' model' (eq_sym E)).
    + subst st1. split; [|split].
      * intros provider model. rewrite Hsum. cbn [costs_of].
        rewrite counter_value_insert_ne; [reflexivity|].
        intros E. exact (cost_key_not_app_info provider model (eq_sym E)).
      * rewrite Hinfo, info_value_insert_eq. reflexivity.
      * intros k Hk1 Hk2. rewrite (Hframe k Hk1 Hk2).
        apply lookup_insert_ne. congruence.
Qed.

Lemma helper_runs_accumulate_witness :
  run (call <$> [ RecordLLMCost "openai" "gpt-4o" 1000 500;
                  InitAppInfo "1.2.3" "prod";
                  RecordLLMCost "claude" "claude-3-opus-20240229" 1000 1000;
                  RecordLLMCost "openai" "gpt-4o" 2000 1000 ]) fresh
  = Ok (<[cost_key "openai" "gpt-4o" := CounterValue 0.037500000000000006]>
          (<[cost_key "claude" "claude-3-opus-20240229" := CounterValue 0.09]>
             (<[(name APP_INFO, []) :=
                 InfoValue {[ "version" := "1.2.3"; "environment" := "prod" ]}]>
                (<[cost_key "openai" "gpt-4o" := CounterValue 0.0125]> fresh))))
  /\ costs_of "openai" "gpt-4o"
       [ RecordLLMCost "openai" "gpt-4o" 1000 500;
         InitAppInfo "1.2.3" "prod";
         RecordLLMCost "claude" "claude-3-opus-20240229" 1000 1000;
         RecordLLMCost "openai" "gpt-4o" 2000 1000 ]
     = [0.0125; 0.025]%float
  /\ cost_counter
       (<[cost_key "openai" "gpt-4o" := CounterValue 0.037500000000000006]>
          (<[cost_key "claude" "claude-3-opus-20240229" := CounterValue 0.09]>
             (<[(name APP_INFO, []) :=
                 InfoValue {[ "version" := "1.2.3"; "environment" := "prod" ]}]>
                (<[cost_key "openai" "gpt-4o" := CounterValue 0.0125]> fresh))))
       "openai" "gpt-4o"
     = fsum (cost_counter fresh "openai" "gpt-4o") [0.0125; 0.025]%float.
Proof.
  assert (costs_of "openai" "gpt-4o"
            [ RecordLLMCost "openai" "gpt-4o" 1000 500;
              InitAppInfo "1.2.3" "prod";
              RecordLLMCost "claude" "claude-3-opus-20240229" 1000 1000;
              RecordLLMCost "openai" "gpt-4o" 2000 1000 ]
          = [0.0125; 0.025]%float) as Hcosts by (vm_compute; reflexivity).
  assert (run (call <$> [ RecordLLMCost "openai" "gpt-4o" 1000 500;
                          InitAppInfo "1.2.3" "prod";
                          RecordLLMCost "claude" "claude-3-opus-20240229" 1000 1000;
                          RecordLLMCost "openai" "gpt-4o" 2000 1000 ]) fresh
          = Ok (<[cost_key "openai" "gpt-4o" := CounterValue 0.037500000000000006]>
                  (<[cost_key "claude" "claude-3-opus-20240229" := CounterValue 0.09]>
                     (<[(name APP_INFO, []) :=
                         InfoValue {[ "version" := "1.2.3"; "environment" := "prod" ]}]>
                        (<[cost_key "openai" "gpt-4o" := CounterValue 0.0125]> fresh)))))
    as Hrun.
  { cbn [fmap list_fmap run call].
    rewrite (record_llm_cost_on_fresh "openai" "gpt-4o" 1000 500 0.0125 0.0125)
      by (vm_compute; reflexivity).
    rewrite init_app_info_eq.
    rewrite (record_llm_cost_on _ "claude" "claude-3-opus-20240229" 1000 1000 0.09)
      by (vm_compute; reflexivity).
    rewrite (record_llm_cost_on _ "openai" "gpt-4o" 2000 1000 0.025)
      by (vm_compute; reflexivity).
    unfold cost_key.
    rewrite (counter_value_insert_ne _ APP_INFO) by discriminate.
    rewrite (counter_value_insert_ne _ LLM_COST_DOLLARS_TOTAL ["openai"; "gpt-4o"]
               LLM_COST_DOLLARS_TOTAL ["claude"; "claude-3-opus-20240229"])
      by discriminate.
    rewrite counter_value_fresh.
    rewrite (counter_value_insert_ne _ LLM_COST_DOLLARS_TOTAL
               ["claude"; "claude-3-opus-20240229"]) by discriminate.
    rewrite (counter_value_insert_ne _ APP_INFO) by discriminate.
    rewrite counter_value_insert_eq.
    replace (0 + 0.09)%float with 0.09%float by (vm_compute; reflexivity).
    replace (0.0125 + 0.025)%float with 0.037500000000000006%float
      by (vm_compute; reflexivity).
    reflexivity. }
  split; [exact Hrun|]. split; [exact Hcosts|].
  rewrite <- Hcosts.
  exact (proj1 (helper_runs_accumulate _ _ _ Hrun) "openai" "gpt-4o").
Defined.

(** X3: from a registry whose counters are non-negative (such as the fresh
    one), a sequence of helper calls with non-negative token counts can only
    fail with [OverflowError], and does not fail at all when the counts are
    below [2^53]; when it succeeds, every counter child is still
    non-negative (never NaN) and every declared counter is at least at its
    starting value. *)
Theorem helper_runs_keep_counters (hs : list helper_call) :
  forall st : registry,
    counters_nonneg st ->
    Forall (fun h => nonneg_tokens h = true) hs ->
    (forall st', run (call <$> hs) st = Ok st' ->
       counters_nonneg st'
       /\ forall (m : instrument) (lv : list string),
            m ∈ instruments -> kind_of m = Counter ->
            (counter_value st m lv <=? counter_value st' m lv)%float = true)
    /\ (forall e, run (call <$> hs) st = Raise e -> e = OverflowError)
    /\ (Forall (fun h => small_tokens h = true) hs ->
        exists st', run (call <$> hs) st = Ok st').
Proof.
  induction hs as [|h hs IH]; intros st Hinv Htok.
  - split; [|split].
    + intros st' H. injection H as <-. split; [exact Hinv|].
      intros m lv _ _.
      apply leb_refl, nonneg_not_nan, counter_value_nonneg, Hinv.
    + intros e H. discriminate H.
    + intros _. exists st. reflexivity.
  - inversion Htok as [|? ? Hh Hrest]; subst.
    rewrite fmap_cons. cbn [run].
    destruct (call h st) as [[[] st1]|e1] eqn:Hcall.
    + destruct (call_keeps_counters h st st1 Hinv Hh Hcall) as [Hinv1 Hmono1].
      destruct (IH st1 Hinv1 Hrest) as (Hok & Herr & Hsmall).
      split; [|split].
      * intros st' Hrun. destruct (Hok st' Hrun) as [Hinv' Hmono'].
        split; [exact Hinv'|]. intros m lv Hm Hk.
        apply (leb_trans _ (counter_value st1 m lv)).
        -- apply Hmono1, (declared_counter_not_app_info m Hm Hk).
        -- apply Hmono'; assumption.
      * exact Herr.
      * intros Hs. inversion Hs; subst. apply Hsmall. assumption.
    + split; [|split].
      * intros st' H. discriminate H.
      * intros e H. injection H as <-.
        exact (call_raises_overflow h st e1 Hh Hcall).
      * intros Hs. inversion Hs as [|? ? Hsh _]; subst.
        destruct (call_small_ok h st Hsh) as [st' Hst']. congruence.
Qed.

Lemma helper_runs_keep_counters_witness :
  counters_nonneg fresh
  /\ Forall (fun h => nonneg_tokens h = true)
       [ RecordLLMCost "openai" "gpt-4o" 1000 500;
         InitAppInfo "1.2.3" "prod";
         RecordLLMCost "openai" "gpt-4o" 2000 1000 ]
  /\ exists st',
       run (call <$> [ RecordLLMCost "openai" "gpt-4o" 1000 500;
                       InitAppInfo "1.2.3" "prod";
                       RecordLLMCost "openai" "gpt-4o" 2000 1000 ]) fresh = Ok st'.
Proof.
  assert (counters_nonneg fresh) as Hinv.
  { intros k v H. unfold fresh in H. rewrite lookup_empty in H. discriminate H. }
  assert (Forall (fun h => nonneg_tokens h = true)
            [ RecordLLMCost "openai" "gpt-4o" 1000 500;
              InitAppInfo "1.2.3" "prod";
              RecordLLMCost "openai" "gpt-4o" 2000 1000 ]) as Htok.
  { repeat constructor. }
  split; [exact Hinv|]. split; [exact Htok|].
  apply (proj2 (proj2 (helper_runs_keep_counters _ fresh Hinv Htok))).
  repeat constructor.
Defined.

(** X4: two [record_llm_cost] calls for different [(provider, model)]
    pairs leave the same registry in either order, and a [record_llm_cost]
    call and an [init_app_info] call give the same result in either
    order. *)
Theorem record_llm_cost_commutes (provider1 model1 provider2 model2 : string)
    (p1 c1 p2 c2 : Z) (version environment : string) (st : registry) :
  (provider1, model1) ≠ (provider2, model2) ->
  (forall s,
     run [record_llm_cost provider1 model1 p1 c1;
          record_llm_cost provider2 model2 p2 c2] st = Ok s
     <-> run [record_llm_cost provider2 model2 p2 c2;
              record_llm_cost provider1 model1 p1 c1] st = Ok s)
  /\ run [record_llm_cost provider1 model1 p1 c1;
          init_app_info version environment] st
     = run [init_app_info version environment;
            record_llm_cost provider1 model1 p1 c1] st.
Proof.
  intros Hne.
  assert (forall (pa ma pb mb : string) (ta ca tb cb : Z) (s : registry),
            (pa, ma) ≠ (pb, mb) ->
            run [record_llm_cost pa ma ta ca; record_llm_cost pb mb tb cb] st = Ok s ->
            run [record_llm_cost pb mb tb cb; record_llm_cost pa ma ta ca] st = Ok s)
    as Swap.
  { intros pa ma pb mb ta ca tb cb s Hab Hrun.
    apply run_cons_inv in Hrun as ([] & st1 & Ha & Hrun).
    apply run_cons_inv in Hrun as ([] & st2 & Hb & Hrun).
    simpl in Hrun. injection Hrun as <-.
    apply (call_step (RecordLLMCost pa ma ta ca)) in Ha
      as (costa & Hca & Hsa & ->).
    apply (call_step (RecordLLMCost pb mb tb cb)) in Hb
      as (costb & Hcb & Hsb & ->).
    assert ((name LLM_COST_DOLLARS_TOTAL, [pa; ma])
            ≠ (name LLM_COST_DOLLARS_TOTAL, [pb; mb])) as Hk.
    { intros E. apply Hab. injection E as -> ->. reflexivity. }
    cbn [run].
    rewrite (record_llm_cost_on st pb mb tb cb costb Hcb Hsb).
    rewrite (record_llm_cost_on _ pa ma ta ca costa Hca Hsa).
    unfold cost_key.
    rewrite (counter_value_insert_ne st LLM_COST_DOLLARS_TOTAL [pb; mb]
               LLM_COST_DOLLARS_TOTAL [pa; ma]) by congruence.
    rewrite (counter_value_insert_ne st LLM_COST_DOLLARS_TOTAL [pa; ma]
               LLM_COST_DOLLARS_TOTAL [pb; mb]) by exact Hk.
    rewrite insert_insert_ne by exact Hk. reflexivity. }
  split.
  - intros s. split; apply Swap; congruence.
  - cbn [run]. rewrite init_app_info_eq, !record_llm_cost_eq.
    destruct (llm_cost model1 p1 c1) as [cost|e]; [|reflexivity].
    unfold inc. destruct (cost <? 0)%float; [reflexivity|].
    rewrite init_app_info_eq.
    rewrite (counter_value_insert_ne st APP_INFO) by discriminate.
    rewrite insert_insert_ne by discriminate. reflexivity.
Qed.

Lemma record_llm_cost_commutes_witness :
  ("openai", "gpt-4o") ≠ ("claude", "gpt-4o")
  /\ run [record_llm_cost "openai" "gpt-4o" 1000 500;
          init_app_info "1.2.3" "prod"] fresh
     = run [init_app_info "1.2.3" "prod";
            record_llm_cost "openai" "gpt-4o" 1000 500] fresh.
Proof.
  assert (("openai", "gpt-4o") ≠ ("claude", "gpt-4o")) as Hne by discriminate.
  split; [exact Hne|].
  exact (proj2 (record_llm_cost_commutes "openai" "gpt-4o" "claude" "gpt-4o"
                  1000 500 7 9 "1.2.3" "prod" fresh Hne)).
Defined.

(** X5: for non-negative token counts the cost is the float sum of a
    prompt part (the cost of the prompt tokens alone) and a completion
    part (the cost of the completion tokens alone); it is below neither
    part, and neither part is below zero. *)
Theorem llm_cost_splits (model : string) (p c : Z) (cost : float) :
  0 <= p -> 0 <= c ->
  llm_cost model p c = Ok cost ->
  exists prompt_part completion_part : float,
    llm_cost model p 0 = Ok prompt_part
    /\ llm_cost model 0 c = Ok completion_part
    /\ cost = (prompt_part + completion_part)%float
    /\ (cost <? prompt_part)%float = false
    /\ (cost <? completion_part)%float = false
    /\ (prompt_part <? 0)%float = false
    /\ (completion_part <? 0)%float = false.
Proof.
  intros Hp Hc. unfold llm_cost.
  destruct (pricing_positive model) as [Hi Ho]. cbv zeta in Hi, Ho.
  set (pr := default default_pricing (LLM_PRICING !! model)) in *.
  assert (Py.int_truediv 0 1000 = Ok 0%float) as H0 by (vm_compute; reflexivity).
  rewrite H0.
  destruct (Py.int_truediv p 1000) as [a|e] eqn:Ea; [|discriminate].
  destruct (Py.int_truediv c 1000) as [b|e] eqn:Eb; [|discriminate].
  cbn [bind_result]. intros H. injection H as <-.
  pose proof (mul_plus a (input pr) (int_truediv_plus p a Hp Ea) Hi) as Pa.
  pose proof (mul_plus b (output pr) (int_truediv_plus c b Hc Eb) Ho) as Pb.
  assert (nonneg (a * input pr) = true) as Na by (apply sf_plus_nonneg, Pa).
  assert (nonneg (b * output pr) = true) as Nb by (apply sf_plus_nonneg, Pb).
  exists (a * input pr)%float, (b * output pr)%float.
  split. { rewrite (zero_mul _ Ho), (add_zero_r _ Pa). reflexivity. }
  split. { rewrite (zero_mul _ Hi), (add_zero_l _ Pb). reflexivity. }
  split; [reflexivity|].
  split. { apply add_not_ltb, nonneg_not_ltb_zero, Nb. }
  split. { rewrite add_comm. apply add_not_ltb, nonneg_not_ltb_zero, Na. }
  split; apply nonneg_not_ltb_zero; assumption.
Qed.

Lemma llm_cost_splits_witness :
  (0 <= 1000 /\ 0 <= 500)
  /\ llm_cost "claude-sonnet-4-20250514" 1000 500 = Ok 0.010499999999999999%float
  /\ exists prompt_part completion_part : float,
       llm_cost "claude-sonnet-4-20250514" 1000 0 = Ok prompt_part
       /\ llm_cost "claude-sonnet-4-20250514" 0 500 = Ok completion_part
       /\ 0.010499999999999999%float = (prompt_part + completion_part)%float.
Proof.
  assert (0 <= 1000) as Hp by lia.
  assert (0 <= 500) as Hc by lia.
  assert (llm_cost "claude-sonnet-4-20250514" 1000 500
          = Ok 0.010499999999999999%float) as Hcost by (vm_compute; reflexivity).
  split; [split; assumption|]. split; [exact Hcost|].
  destruct (llm_cost_splits "claude-sonnet-4-20250514" 1000 500
              0.010499999999999999%float Hp Hc Hcost)
    as (pp & cp & H1 & H2 & H3 & _).
  exists pp, cp. split; [exact H1|]. split; [exact H2|exact H3].
Defined.

(** X6: whatever the model name, the rates [record_llm_cost] uses (the
    table entry, or the default for an unknown model) are positive finite
    numbers, the output rate is at least the input rate, and no rate
    exceeds [0.075] dollars per 1000 tokens. *)
Theorem pricing_bounds (model : string) :
  (0 <? input (default default_pricing (LLM_PRICING !! model)))%float = true
  /\ is_finite (input (default default_pricing (LLM_PRICING !! model))) = true
  /\ is_finite (output (default default_pricing (LLM_PRICING !! model))) = true
  /\ (input (default default_pricing (LLM_PRICING !! model))
      <=? output (default default_pricing (LLM_PRICING !! model)))%float = true
  /\ (output (default default_pricing (LLM_PRICING !! model)) <=? 0.075)%float = true.
Proof.
  destruct (LLM_PRICING !! model) as [pr|] eqn:E; cbn [default from_option].
  - apply LLM_PRICING_values in E.
    repeat (apply elem_of_cons in E as [->|E];
            [repeat split; vm_compute; reflexivity|]).
    apply elem_of_nil in E. destruct E.
  - repeat split; vm_compute; reflexivity.
Qed.

(** X7: the declarations follow the naming convention of the module's
    docstring: every instrument name starts with the namespace
    [careplan_], every counter name ends in [_total], every histogram name
    ends in the unit [_seconds]; and within each instrument the label
    names are pairwise distinct. *)
Theorem instruments_well_named :
  Forall (fun m => well_named m = true /\ NoDup (labelnames m)) instruments.
Proof.
  apply Forall_forall. intros m Hm.
  repeat (apply elem_of_cons in Hm as [->|Hm];
          [split; [vm_compute; reflexivity|];
           refine (bool_decide_unpack (NoDup _) _); vm_compute; reflexivity|]).
  apply elem_of_nil in Hm. destruct Hm.
Qed.
